(** * The potato-disease inference endpoint ([backend/api/main.py])

    A shallow embedding of the prediction endpoint: [read_file_as_image],
    [preprocess_image] and [predict], together with the parts of Pillow,
    NumPy, TensorFlow and Keras that these three functions call.  (The
    repository also holds an earlier stub, [api/main.py], whose endpoint
    loads no model and returns nothing; it is not modelled.)

    Conventions.
    - A Python exception is a value of [exn]; a call that may raise returns
      a [result].  [predict] also records every invocation of the loaded
      model in a trace, so that "before the model is invoked" can be said.
    - A NumPy array is its shape, its dtype and its samples in row-major
      order.  Samples of the image arrays are rationals: an unsigned 8-bit
      sample is an integer in 0..255, and the float32 arithmetic of the
      bilinear resize is carried out exactly (rounding is not modelled).
    - The scores returned by the model are IEEE-754 numbers (binary32 by
      default), as [spec_float]s; Python's [float] is binary64.
    - The image codec behind [Image.open] and the loaded Keras model are not
      part of the repository; they are variables of the development.
    - The debugging [print] calls of the source are left out. *)

From Stdlib Require Import String Strings.Byte DecimalString SpecFloat.
From Stdlib Require Import List Bool Arith ZArith QArith Qround Qpower Lia Lqa.
Import ListNotations.

Local Open Scope nat_scope.
Local Open Scope list_scope.

(** ** Exceptions *)

(** The exceptions that the modelled calls can raise. *)
Inductive exn : Type :=
| UnidentifiedImageError          (* PIL: no plugin recognises the stream *)
| OSError                         (* PIL: truncated or broken pixel data *)
| InvalidArgumentError            (* tf.errors.InvalidArgumentError *)
| ValueError
| IndexError
| OtherError (name : string).

Inductive result (A : Type) : Type :=
| Ok (a : A)
| Raise (e : exn).
Arguments Ok {A} a.
Arguments Raise {A} e.

Definition rbind {A B} (c : result A) (k : A -> result B) : result B :=
  match c with
  | Ok a => k a
  | Raise e => Raise e
  end.

Declare Scope py_scope.
Delimit Scope py_scope with py.
Notation "x <- c ;; k" := (rbind c (fun x => k))
  (at level 61, c at next level, right associativity) : py_scope.

(** Python's [seq[i]] for a non-negative index. *)
Definition getitem {A} (l : list A) (i : nat) : result A :=
  match nth_error l i with
  | Some a => Ok a
  | None => Raise IndexError
  end.

(** ** Floating-point scores *)

Definition is_nan (f : spec_float) : bool :=
  match f with
  | S754_nan => true
  | _ => false
  end.

(** A number of the format with [prec] bits of precision and exponents
    below [emax]. *)
Definition is_binary (prec emax : Z) (f : spec_float) : Prop :=
  valid_binary prec emax f = true.

(** The NumPy float dtypes a Keras model can return: float16, float32
    (the default) and float64. *)
Definition is_np_float (f : spec_float) : Prop :=
  is_binary 11 16 f \/ is_binary 24 128 f \/ is_binary 53 1024 f.

(** The binary32 number nearest to [n / d], for small integers [n], [d]. *)
Definition f32 (n d : Z) : spec_float :=
  SFdiv 24 128 (binary_normalize 24 128 n 0 false)
               (binary_normalize 24 128 d 0 false).

(** The rational value of a finite number. *)
Definition F2Q (s : bool) (m : positive) (e : Z) : Q :=
  inject_Z (if s then Zneg m else Zpos m) * Qpower 2 e.

(** Two numbers, possibly of different formats, that denote the same
    value. *)
Definition same_value (a b : spec_float) : Prop :=
  match a, b with
  | S754_nan, S754_nan => True
  | S754_infinity s, S754_infinity s' => s = s'
  | S754_zero s, S754_zero s' => s = s'
  | S754_finite s m e, S754_finite s' m' e' => Qeq (F2Q s m e) (F2Q s' m' e')
  | _, _ => False
  end.

(** The value lies in the closed interval [0, 1]. *)
Definition in_unit_interval (f : spec_float) : Prop :=
  match f with
  | S754_zero _ => True
  | S754_finite s m e => Qle 0 (F2Q s m e) /\ Qle (F2Q s m e) 1
  | _ => False
  end.

(** [float(x)] for a NumPy float scalar [x]: conversion to binary64. *)
Definition py_float (x : spec_float) : spec_float :=
  match x with
  | S754_finite s m e => binary_round 53 1024 s m e
  | _ => x
  end.

(** ** Pillow images *)

Module PIL.

(** Image modes.  The four modes whose conversion to RGB is written out
    below, and every other mode by its name and number of bands. *)
Inductive mode : Type :=
| L | LA | RGB | RGBA
| OtherMode (name : string) (nbands : nat).

Definition getbands (m : mode) : nat :=
  match m with
  | L => 1
  | LA => 2
  | RGB => 3
  | RGBA => 4
  | OtherMode _ nbands => nbands
  end.

(** A loaded image: its mode, its size as (width, height), and its
    pixels, one list of 8-bit band values per coordinate (x, y). *)
Record Image : Type := {
  mode_of : mode;
  size : nat * nat;
  getpixel : nat * nat -> list byte
}.

Section Convert.
(** Pillow's converters to RGB for the modes not written out here
    (palette, CMYK, YCbCr, ...). *)
Variable to_rgb_other : string -> list byte -> byte * byte * byte.

Definition convert_pixel_RGB (m : mode) (px : list byte) : list byte :=
  let band i := nth i px x00 in
  match m with
  | L | LA => [band 0; band 0; band 0]
  | RGB | RGBA => [band 0; band 1; band 2]
  | OtherMode name _ =>
      let '(r, g, b) := to_rgb_other name px in [r; g; b]
  end.

(** [im.convert("RGB")]. *)
Definition convert_RGB (im : Image) : Image :=
  {| mode_of := RGB;
     size := size im;
     getpixel := fun xy => convert_pixel_RGB (mode_of im) (getpixel im xy) |}.
End Convert.

End PIL.

(** ** NumPy *)

Module np.

Inductive dtype_t : Type := uint8 | float32.

Record ndarray : Type := {
  shape : list nat;
  dtype : dtype_t;
  data : list Q
}.

Definition sample (b : byte) : Q := inject_Z (Z.of_N (Byte.to_N b)).

(** [np.array(image)] for a Pillow image: shape (height, width, bands),
    or (height, width) for a single band; dtype uint8. *)
Definition array (im : PIL.Image) : ndarray :=
  let '(w, h) := PIL.size im in
  let nb := PIL.getbands (PIL.mode_of im) in
  {| shape := if nb =? 1 then [h; w] else [h; w; nb];
     dtype := uint8;
     data :=
       flat_map (fun y =>
         flat_map (fun x =>
           map (fun c => sample (nth c (PIL.getpixel im (x, y)) x00))
               (seq 0 nb))
           (seq 0 w))
         (seq 0 h) |}.

(** [np.expand_dims(a, axis)] for a non-negative axis. *)
Definition expand_dims (a : ndarray) (axis : nat) : result ndarray :=
  if axis <=? length (shape a) then
    Ok {| shape := firstn axis (shape a) ++ 1 :: skipn axis (shape a);
          dtype := dtype a;
          data := data a |}
  else Raise (OtherError "AxisError").

(** [np.argmax] on a one-dimensional float array: NumPy's [_argmax] loop
    for floating types.  The current maximum [mp] is replaced when
    [!(x <= mp)]; a NaN is maximal and ends the scan. *)
Fixpoint argmax_loop (mp : spec_float) (max_ind i : nat)
         (ip : list spec_float) : nat :=
  match ip with
  | [] => max_ind
  | x :: ip' =>
      if negb (SFleb x mp) then
        if is_nan x then i else argmax_loop x i (S i) ip'
      else argmax_loop mp max_ind (S i) ip'
  end.

Definition argmax (a : list spec_float) : result nat :=
  match a with
  | [] => Raise ValueError
  | x :: ip => Ok (if is_nan x then 0 else argmax_loop x 0 1 ip)
  end.

(** [np.maximum] on two floats: [(in1 >= in2 || isnan(in1)) ? in1 : in2],
    the scalar loop.  Of two equal values, which are the same number or
    the two zeros, it keeps the first; NumPy's vectorised loops may return
    the other zero, so nothing below depends on which of the two it is. *)
Definition maximum (in1 in2 : spec_float) : spec_float :=
  if SFleb in2 in1 || is_nan in1 then in1 else in2.

(** [np.max]: the reduction of [maximum] over the array. *)
Definition max (a : list spec_float) : result spec_float :=
  match a with
  | [] => Raise ValueError
  | x :: rest => Ok (fold_left maximum rest x)
  end.

End np.

(** ** TensorFlow: [tf.image.resize] with its default bilinear method *)

Module tf.

Record CachedInterpolation : Type := {
  lower : nat;
  upper : nat;
  lerp : Q
}.

(** The source coordinate of output index [i] (half-pixel centres):
    [(i + 0.5) * scale - 0.5] with [scale = in_size / out_size]. *)
Definition scaler (out_size in_size i : nat) : Q :=
  ((inject_Z (Z.of_nat i) + (1 # 2))
     * (inject_Z (Z.of_nat in_size) / inject_Z (Z.of_nat out_size))
   - (1 # 2))%Q.

Definition compute_interpolation_weights (out_size in_size i : nat)
  : CachedInterpolation :=
  let inp := scaler out_size in_size i in
  let in_f := Qfloor inp in
  {| lower := Z.to_nat (Z.max in_f 0);
     upper := Z.to_nat (Z.min (Qceiling inp) (Z.of_nat in_size - 1));
     lerp := (inp - inject_Z in_f)%Q |}.

Definition compute_lerp (top_left top_right bottom_left bottom_right
                         x_lerp y_lerp : Q) : Q :=
  let top := (top_left + (top_right - top_left) * x_lerp)%Q in
  let bottom := (bottom_left + (bottom_right - bottom_left) * x_lerp)%Q in
  (top + (bottom - top) * y_lerp)%Q.

(** The kernel's loop over batch, rows, columns and channels. *)
Definition resize_image (images : list Q) (n h w c out_h out_w : nat)
  : list Q :=
  let ys := map (compute_interpolation_weights out_h h) (seq 0 out_h) in
  let xs := map (compute_interpolation_weights out_w w) (seq 0 out_w) in
  flat_map (fun b =>
    flat_map (fun yw =>
      flat_map (fun xw =>
        map (fun ch =>
          let px y x := nth (((b * h + y) * w + x) * c + ch) images 0%Q in
          compute_lerp (px (lower yw) (lower xw)) (px (lower yw) (upper xw))
                       (px (upper yw) (lower xw)) (px (upper yw) (upper xw))
                       (lerp xw) (lerp yw))
          (seq 0 c))
        xs)
      ys)
    (seq 0 n).

(** The [ResizeBilinear] op on a batch of shape (n, h, w, c): it refuses
    a non-positive output size, an image without channels and an image
    of zero height or width. *)
Definition resize_bilinear (images : list Q) (n h w c : nat)
           (size : nat * nat) : result (list Q) :=
  let '(out_h, out_w) := size in
  if (out_h =? 0) || (out_w =? 0) then Raise InvalidArgumentError
  else if c =? 0 then Raise InvalidArgumentError
  else if (h =? 0) || (w =? 0) then Raise InvalidArgumentError
  else Ok (resize_image images n h w c out_h out_w).

(** [tf.image.resize(images, size)]: a 3-D image is resized as a batch
    of one; the result is float32 whatever the dtype of [images]. *)
Definition image_resize (images : np.ndarray) (size : nat * nat)
  : result np.ndarray :=
  match np.shape images with
  | [h; w; c] =>
      match resize_bilinear (np.data images) 1 h w c size with
      | Ok out => Ok {| np.shape := [fst size; snd size; c];
                        np.dtype := np.float32;
                        np.data := out |}
      | Raise e => Raise e
      end
  | [n; h; w; c] =>
      match resize_bilinear (np.data images) n h w c size with
      | Ok out => Ok {| np.shape := [n; fst size; snd size; c];
                        np.dtype := np.float32;
                        np.data := out |}
      | Raise e => Raise e
      end
  | _ => Raise ValueError
  end.

End tf.

(** ** What the endpoint does to the outside world *)

(** The only effect of [predict] that matters here: the loaded model is
    invoked on a batch. *)
Inductive event : Type :=
| ModelInvoked (x : np.ndarray).

Definition M (A : Type) : Type := (list event * result A)%type.

Definition mbind {A B} (c : M A) (k : A -> M B) : M B :=
  match c with
  | (t, Ok a) => let (t', r) := k a in (t ++ t', r)
  | (t, Raise e) => (t, Raise e)
  end.

Definition lift {A} (c : result A) : M A := ([], c).

Notation "x <~ c ;; k" := (mbind c (fun x => k))
  (at level 61, c at next level, right associativity) : py_scope.

(** ** Keras *)

Module keras.

(** A loaded model: the input shape it was built for ([None] is a free
    dimension) and what calling it on a batch returns or raises. *)
Record Model : Type := {
  input_shape : list (option nat);
  call : np.ndarray -> result (list (list spec_float))
}.

Fixpoint compatible (expected : list (option nat)) (actual : list nat)
  : bool :=
  match expected, actual with
  | [], [] => true
  | None :: e, _ :: a => compatible e a
  | Some d :: e, d' :: a => (d =? d') && compatible e a
  | _, _ => false
  end.

(** [model.predict(x)]: the model is invoked on [x]. *)
Definition predict (model : Model) (x : np.ndarray)
  : M (list (list spec_float)) :=
  ([ModelInvoked x], call model x).

End keras.

(** ** The application *)

Module fastapi.
(** An uploaded file: its name and what [await file.read()] returns. *)
Record UploadFile : Type := {
  filename : string;
  read : list byte
}.
End fastapi.

(** The dictionary returned by [predict]. *)
Record ClassificationResult : Type := {
  filename : string;
  prediction : string;
  confidence : spec_float;
  class_index : nat;
  shape : string
}.

Definition CLASS_NAMES : list string :=
  ["Early_blight"; "Late_blight"; "Healthy"]%string.

Definition IMAGE_SIZE : nat * nat := (256, 256).

(** [str(t)] for a tuple of non-negative integers. *)
Definition str_int (n : nat) : string := NilZero.string_of_uint (Nat.to_uint n).

Definition str_tuple (t : list nat) : string :=
  match t with
  | [] => "()"
  | [n] => "(" ++ str_int n ++ ",)"
  | _ => "(" ++ String.concat ", " (map str_int t) ++ ")"
  end%string.

Local Open Scope py_scope.

Definition preprocess_image (image : np.ndarray) : result np.ndarray :=
  img <- tf.image_resize image IMAGE_SIZE ;;
  (* img = img / 255.0 is commented out in the source *)
  np.expand_dims img 0.

(** Lines 44-54 of [predict]: the result-assembly step.  The labels table
    ([CLASS_NAMES] in [predict]), the file name and the image shape that
    these lines read are arguments here. *)
Definition assemble (labels : list string) (file_name : string)
           (image_shape : list nat) (preds : list (list spec_float))
  : result ClassificationResult :=
  row <- getitem preds 0 ;;
  predicted_index <- np.argmax row ;;
  predicted_class <- getitem labels predicted_index ;;
  top <- np.max row ;;
  Ok {| filename := file_name;
        prediction := predicted_class;
        confidence := py_float top;
        class_index := predicted_index;
        shape := str_tuple image_shape |}.

Section App.

(** [Image.open(BytesIO(data))] followed by the loading of the pixel
    data that [convert] triggers: the codec either yields an image or
    raises. *)
Variable Image_open : list byte -> result PIL.Image.
Variable to_rgb_other : string -> list byte -> byte * byte * byte.

(** The model loaded from [MODEL_PATH] when the module is imported. *)
Variable MODEL : keras.Model.

Definition read_file_as_image (data : list byte) : result np.ndarray :=
  image <- Image_open data ;;
  Ok (np.array (PIL.convert_RGB to_rgb_other image)).

Definition predict (file : fastapi.UploadFile) : M ClassificationResult :=
  image <~ lift (read_file_as_image (fastapi.read file)) ;;
  input_batch <~ lift (preprocess_image image) ;;
  preds <~ keras.predict MODEL input_batch ;;
  lift (assemble CLASS_NAMES (fastapi.filename file) (np.shape image) preds).

End App.

(** ** Predicates used in the statements *)

(** [i] is the first index of [scores] that holds the maximum [m]: [m] is
    at [i], nothing before [i] equals [m] (neither as a value nor under
    the IEEE comparison), and [m] bounds every score unless it is NaN. *)
Definition first_index_of_max (scores : list spec_float) (i : nat)
           (m : spec_float) : Prop :=
  nth_error scores i = Some m /\
  (forall j x, j < i -> nth_error scores j = Some x ->
               x <> m /\ SFeqb x m = false) /\
  (is_nan m = true \/ forall x, In x scores -> SFleb x m = true).

(** The array that [read_file_as_image] makes of a loaded image. *)
Abbreviation decoded to_rgb_other im :=
  (np.array (PIL.convert_RGB to_rgb_other im)) (only parsing).

(** [a == b] in IEEE arithmetic, or both are NaN. *)
Definition same_float (a b : spec_float) : Prop :=
  SFeqb a b = true \/ (is_nan a = true /\ is_nan b = true).

(** [m] is a maximum of [scores]: it has the value of one of them, and it
    is NaN or bounds all of them. *)
Definition is_maximum (scores : list spec_float) (m : spec_float) : Prop :=
  (exists x, In x scores /\ same_float x m) /\
  (is_nan m = true \/ forall y, In y scores -> SFleb y m = true).

(** [i] is the first index of [scores] whose score equals [m]. *)
Definition first_index_equal_to (scores : list spec_float) (i : nat)
           (m : spec_float) : Prop :=
  (exists x, nth_error scores i = Some x /\ same_float x m) /\
  (forall j y, j < i -> nth_error scores j = Some y -> ~ same_float y m).

(** Every sample of the array lies between [lo] and [hi]. *)
Definition samples_within (lo hi : Q) (a : np.ndarray) : Prop :=
  Forall (fun q => (lo <= q <= hi)%Q) (np.data a).

(** ** Concrete inputs *)

Module Demo.

(** A codec with one toy format, for running the endpoint on concrete
    bytes: the first byte is the side of a square greyscale image, the
    second byte the value of all its pixels; a shorter stream is not
    identified. *)
Definition Image_open (data : list byte) : result PIL.Image :=
  match data with
  | side :: value :: _ =>
      Ok {| PIL.mode_of := PIL.L;
            PIL.size := (Byte.to_nat side, Byte.to_nat side);
            PIL.getpixel := fun _ => [value] |}
  | _ => Raise UnidentifiedImageError
  end.

Definition to_rgb_other (name : string) (px : list byte)
  : byte * byte * byte := (x00, x00, x00).

(** A white 2x2 RGBA image. *)
Definition white_image : PIL.Image :=
  {| PIL.mode_of := PIL.RGBA;
     PIL.size := (2, 2);
     PIL.getpixel := fun _ => [xff; xff; xff; xff] |}.

(** An upload that decodes to a 2x2 image, one that decodes to an image of
    width and height 0, and an empty one. *)
Definition leaf : fastapi.UploadFile :=
  {| fastapi.filename := "leaf.jpg"; fastapi.read := [x02; x80] |}.

Definition empty_leaf : fastapi.UploadFile :=
  {| fastapi.filename := "zero.gif"; fastapi.read := [x00; x80] |}.

Definition empty_upload : fastapi.UploadFile :=
  {| fastapi.filename := "empty.jpg"; fastapi.read := [] |}.

Definition empty_image : PIL.Image :=
  {| PIL.mode_of := PIL.L;
     PIL.size := (0, 0);
     PIL.getpixel := fun _ => [x80] |}.

(** What [leaf] decodes to, and the batch made of it. *)
Definition leaf_image : np.ndarray :=
  np.array (PIL.convert_RGB to_rgb_other
              {| PIL.mode_of := PIL.L;
                 PIL.size := (2, 2);
                 PIL.getpixel := fun _ => [x80] |}).

Definition leaf_batch : np.ndarray :=
  {| np.shape := [1; fst IMAGE_SIZE; snd IMAGE_SIZE; 3];
     np.dtype := np.float32;
     np.data := tf.resize_image (np.data leaf_image) 1 2 2 3
                                (fst IMAGE_SIZE) (snd IMAGE_SIZE) |}.

(** A model that returns the same scores for every batch. *)
Definition constant_model (scores : list spec_float) : keras.Model :=
  {| keras.input_shape := [None; Some 256; Some 256; Some 3];
     keras.call := fun _ => Ok [scores] |}.

(** A model built for 128x128 images whose call checks the shape of its
    argument, as a Keras model with a fixed input layer does. *)
Definition model_128 : keras.Model :=
  {| keras.input_shape := [None; Some 128; Some 128; Some 3];
     keras.call := fun x =>
       if keras.compatible [None; Some 128; Some 128; Some 3] (np.shape x)
       then Ok [[f32 2 100; f32 3 100; f32 95 100]]
       else Raise ValueError |}.

(** A model built for 128x128 images that accepts a batch of any height
    and width, as a convolutional Keras model ending in a global pooling
    layer does. *)
Definition pooling_model_128 : keras.Model :=
  {| keras.input_shape := [None; Some 128; Some 128; Some 3];
     keras.call := fun _ => Ok [[f32 2 100; f32 3 100; f32 95 100]] |}.

End Demo.

(** ** More concrete inputs *)

Module Samples.

(** A 2x2 greyscale image with an alpha band. *)
Definition grey_image : PIL.Image :=
  {| PIL.mode_of := PIL.LA;
     PIL.size := (2, 2);
     PIL.getpixel := fun xy => [if fst xy =? 0 then x10 else xc0; xff] |}.

(** An RGB image that already has the size of the model input. *)
Definition full_size_image : PIL.Image :=
  {| PIL.mode_of := PIL.RGB;
     PIL.size := (256, 256);
     PIL.getpixel := fun xy => [x10; if snd xy =? 0 then x20 else x21; x30] |}.

(** The toy codec of [Demo], refusing a side of 0 as Pillow's plugins
    refuse a header with a zero width or height. *)
Definition Image_open (data : list byte) : result PIL.Image :=
  match data with
  | side :: value :: _ =>
      if Byte.to_nat side =? 0 then Raise UnidentifiedImageError
      else Ok {| PIL.mode_of := PIL.L;
                 PIL.size := (Byte.to_nat side, Byte.to_nat side);
                 PIL.getpixel := fun _ => [value] |}
  | _ => Raise UnidentifiedImageError
  end.

End Samples.

(** * Properties *)

(** ** Sanity checks on concrete values *)

Example f32_half : f32 1 2 = S754_finite false 8388608 (-24).
Proof. reflexivity. Qed.

Example f32_tenth : f32 1 10 = S754_finite false 13421773 (-27).
Proof. reflexivity. Qed.

Example str_tuple_rgb : str_tuple [256; 256; 3] = "(256, 256, 3)"%string.
Proof. reflexivity. Qed.

(** Scores [0.02, 0.03, 0.95] give "Healthy", index 2 and the binary32
    number nearest to 0.95 as confidence. *)
Example assemble_scenario_1 :
  assemble CLASS_NAMES "leaf.jpg" [256; 256; 3]
           [[f32 2 100; f32 3 100; f32 95 100]]
  = Ok {| filename := "leaf.jpg";
          prediction := "Healthy";
          confidence := S754_finite false 8556839184629760 (-53);
          class_index := 2;
          shape := "(256, 256, 3)" |}.
Proof. reflexivity. Qed.

(** Bilinear resizing of the 2x2 image [[1, 2], [3, 4]] to 4x4, of a 4x4
    image to 2x2, and of an image to its own size. *)
Example resize_2x2_to_4x4 :
  map Qred (tf.resize_image [1; 2; 3; 4]%Q 1 2 2 1 4 4)
  = [1; 5 # 4; 7 # 4; 2;
     3 # 2; 7 # 4; 9 # 4; 5 # 2;
     5 # 2; 11 # 4; 13 # 4; 7 # 2;
     3; 13 # 4; 15 # 4; 4]%Q.
Proof. reflexivity. Qed.

Example resize_4x4_to_2x2 :
  map Qred (tf.resize_image
              [1; 2; 3; 4; 5; 6; 7; 8; 9; 10; 11; 12; 13; 14; 15; 16]%Q
              1 4 4 1 2 2)
  = [7 # 2; 11 # 2; 23 # 2; 27 # 2]%Q.
Proof. reflexivity. Qed.

Example resize_same_size :
  map Qred (tf.resize_image [1; 2; 3; 4; 5; 6]%Q 1 2 3 1 2 3)
  = [1; 2; 3; 4; 5; 6]%Q.
Proof. reflexivity. Qed.

(** A NaN among the scores is the maximum, at its first position. *)
Example argmax_nan :
  np.argmax [f32 1 2; S754_nan; f32 3 1] = Ok 1 /\
  np.max [f32 1 2; S754_nan; f32 3 1] = Ok S754_nan.
Proof. split; reflexivity. Qed.

(** ** The order on floating-point numbers *)

Section FloatOrder.

Ltac split_compare :=
  repeat match goal with
  | H : context [Z.compare ?x ?y] |- _ =>
      destruct (Z.compare_spec x y); subst
  | |- context [Z.compare ?x ?y] =>
      destruct (Z.compare_spec x y); subst
  | H : context [Pos.compare_cont Eq ?x ?y] |- _ =>
      change (Pos.compare_cont Eq x y) with (Pos.compare x y) in *;
      destruct (Pos.compare_spec x y); subst
  | |- context [Pos.compare_cont Eq ?x ?y] =>
      change (Pos.compare_cont Eq x y) with (Pos.compare x y) in *;
      destruct (Pos.compare_spec x y); subst
  end.

Ltac float_cases :=
  unfold SFleb, SFltb, SFeqb, SFcompare; intros;
  repeat match goal with
  | f : spec_float |- _ => destruct f as [[]|[]| |[] ? ?]
  end;
  simpl in *; try congruence; try discriminate;
  split_compare; simpl in *; try congruence; try discriminate; try lia.

Lemma SFleb_not_nan a b :
  SFleb a b = true -> is_nan a = false /\ is_nan b = false.
Proof. revert a b. float_cases; auto. Qed.

Lemma SFleb_refl a : is_nan a = false -> SFleb a a = true.
Proof. revert a. float_cases. Qed.

Lemma SFleb_false_ltb a b :
  is_nan a = false -> is_nan b = false ->
  SFleb a b = false -> SFltb b a = true.
Proof. revert a b. float_cases. Qed.

Lemma SFltb_leb a b : SFltb a b = true -> SFleb a b = true.
Proof. revert a b. float_cases. Qed.

Lemma SFltb_neq a b : SFltb a b = true -> a <> b /\ SFeqb a b = false.
Proof.
  intros H; split.
  - intros ->. revert b H. float_cases.
  - revert a b H. float_cases.
Qed.

Lemma SFleb_ltb_trans a b c :
  SFleb a b = true -> SFltb b c = true -> SFltb a c = true.
Proof. revert a b c. float_cases. Qed.

Lemma SFeqb_not_nan a b :
  SFeqb a b = true -> is_nan a = false /\ is_nan b = false.
Proof. revert a b. float_cases; auto. Qed.

Lemma SFeqb_refl a : is_nan a = false -> SFeqb a a = true.
Proof. revert a. float_cases. Qed.

Lemma SFleb_antisym a b :
  SFleb a b = true -> SFleb b a = true -> SFeqb a b = true.
Proof. revert a b. float_cases. Qed.

Lemma SFeqb_leb a b c :
  SFeqb a b = true -> SFleb a c = true -> SFleb b c = true.
Proof. revert a b c. float_cases. Qed.

Lemma SFeqb_trans_r a b c :
  SFeqb a c = true -> SFeqb b c = true -> SFeqb a b = true.
Proof. revert a b c. float_cases. Qed.

End FloatOrder.

(** ** [np.argmax] and [np.max] *)

Lemma fold_maximum_nan rest : fold_left np.maximum rest S754_nan = S754_nan.
Proof.
  induction rest as [|x rest IH]; simpl; [reflexivity|].
  unfold np.maximum at 2. simpl. rewrite orb_true_r. exact IH.
Qed.

(** The loop invariant: [pre] is the part already scanned, [mp] its
    maximum, first reached at [max_ind]. *)
Lemma argmax_loop_spec rest :
  forall pre mp max_ind,
    is_nan mp = false ->
    nth_error pre max_ind = Some mp ->
    (forall x, In x pre -> SFleb x mp = true) ->
    (forall j x, j < max_ind -> nth_error pre j = Some x ->
                 SFltb x mp = true) ->
    first_index_of_max (pre ++ rest)
      (np.argmax_loop mp max_ind (length pre) rest)
      (fold_left np.maximum rest mp).
Proof.
  induction rest as [|x rest IH]; intros pre mp max_ind Hmp Hat Hle Hlt.
  - simpl. rewrite app_nil_r. split; [exact Hat|]. split.
    + intros j x Hj Hx. apply SFltb_neq. eauto.
    + right. exact Hle.
  - simpl. destruct (SFleb x mp) eqn:Hx; simpl.
    + (* x <= mp: the maximum stays *)
      assert (Hmax : np.maximum mp x = mp)
        by (unfold np.maximum; rewrite Hx; reflexivity).
      rewrite Hmax.
      specialize (IH (pre ++ [x]) mp max_ind Hmp).
      rewrite <- app_assoc, length_app in IH. simpl in IH.
      rewrite Nat.add_1_r in IH. apply IH.
      * rewrite nth_error_app1; [exact Hat|].
        apply nth_error_Some. congruence.
      * intros y Hy. apply in_app_or in Hy. destruct Hy as [Hy|[<-|[]]]; auto.
      * intros j y Hj Hy. apply (Hlt j y Hj).
        rewrite nth_error_app1 in Hy; [exact Hy|].
        assert (max_ind < length pre) by (apply nth_error_Some; congruence).
        lia.
    + destruct (is_nan x) eqn:Hnan.
      * (* a NaN ends the scan *)
        destruct x; try discriminate.
        assert (Hmax : np.maximum mp S754_nan = S754_nan).
        { unfold np.maximum. rewrite Hmp.
          destruct mp as [[]|[]| |[] ? ?]; reflexivity. }
        rewrite Hmax, fold_maximum_nan. split; [|split].
        -- rewrite nth_error_app2 by lia. rewrite Nat.sub_diag. reflexivity.
        -- intros j y Hj Hy. rewrite nth_error_app1 in Hy by lia.
           apply nth_error_In, Hle, SFleb_not_nan in Hy. destruct Hy as [Hy _].
           split; [intros ->; discriminate|].
           destruct y as [[]|[]| |[] ? ?]; reflexivity.
        -- left. reflexivity.
      * (* x > mp: x is the new maximum, first reached here *)
        assert (Hgt : SFltb mp x = true) by (apply SFleb_false_ltb; auto).
        assert (Hmax : np.maximum mp x = x)
          by (unfold np.maximum; rewrite Hx, Hmp; reflexivity).
        rewrite Hmax.
        specialize (IH (pre ++ [x]) x (length pre) Hnan).
        rewrite <- app_assoc, length_app in IH. simpl in IH.
        rewrite Nat.add_1_r in IH. apply IH.
        -- rewrite nth_error_app2 by lia. rewrite Nat.sub_diag. reflexivity.
        -- intros y Hy. apply in_app_or in Hy. destruct Hy as [Hy|[<-|[]]].
           ++ apply SFltb_leb. eapply SFleb_ltb_trans; eauto.
           ++ apply SFleb_refl. exact Hnan.
        -- intros j y Hj Hy. rewrite nth_error_app1 in Hy by lia.
           eapply SFleb_ltb_trans; [|exact Hgt].
           apply Hle. eapply nth_error_In; eauto.
Qed.

Lemma argmax_first_index_of_max scores :
  scores <> [] ->
  exists i m, np.argmax scores = Ok i /\ np.max scores = Ok m /\
              first_index_of_max scores i m.
Proof.
  destruct scores as [|x rest]; [congruence|]. intros _.
  simpl. do 2 eexists. split; [reflexivity|]. split; [reflexivity|].
  destruct (is_nan x) eqn:Hnan.
  - destruct x; try discriminate. rewrite fold_maximum_nan.
    split; [reflexivity|]. split; [intros j y Hj; lia|]. left. reflexivity.
  - apply (argmax_loop_spec rest [x] x 0 Hnan).
    + reflexivity.
    + intros y [<-|[]]. apply SFleb_refl. exact Hnan.
    + intros j y Hj. lia.
Qed.

(** ** [float(...)] of a NumPy float is exact *)

Section Widening.
Local Open Scope Z_scope.

Lemma digits2_iter_xO m p :
  digits2_pos (Pos.iter xO m p) = (digits2_pos m + p)%positive.
Proof.
  induction p using Pos.peano_ind.
  - simpl. lia.
  - rewrite Pos.iter_succ. simpl. rewrite IHp. lia.
Qed.

Lemma Zpos_iter_xO m p : Zpos (Pos.iter xO m p) = Zpos m * 2 ^ Zpos p.
Proof.
  induction p using Pos.peano_ind.
  - simpl. lia.
  - rewrite Pos.iter_succ, Pos2Z.inj_xO, IHp, Pos2Z.inj_succ, Z.pow_succ_r; lia.
Qed.

Lemma F2Q_shift s m e p :
  Qeq (F2Q s (Pos.iter xO m p) (e - Zpos p)) (F2Q s m e).
Proof.
  unfold F2Q.
  assert (Hs : (if s then Zneg (Pos.iter xO m p) else Zpos (Pos.iter xO m p))
               = (if s then Zneg m else Zpos m) * 2 ^ Zpos p).
  { destruct s.
    - change (Zneg (Pos.iter xO m p)) with (- Zpos (Pos.iter xO m p)).
      rewrite Zpos_iter_xO. change (Zneg m) with (- Zpos m). ring.
    - apply Zpos_iter_xO. }
  rewrite Hs, inject_Z_mult, Zpower_Qpower by lia.
  replace e with (Zpos p + (e - Zpos p)) at 2 by lia.
  rewrite Qpower_plus by discriminate.
  change (inject_Z 2) with 2%Q. ring.
Qed.

(** A format that binary64 contains: no more precision, no smaller
    subnormals, no larger exponents. *)
Section Format.
Variables prec emax : Z.
Hypothesis prec_le : prec <= 53.
Hypothesis emin_ge : -1074 <= 3 - emax - prec.
Hypothesis emax_le : emax - prec <= 971.

Lemma binary_bounds s m e :
  is_binary prec emax (S754_finite s m e) ->
  Zpos (digits2_pos m) <= prec /\ 3 - emax - prec <= e <= emax - prec.
Proof.
  unfold is_binary, valid_binary, bounded, canonical_mantissa, fexp, emin.
  intros H. apply andb_prop in H. destruct H as [H1 H2].
  apply Z.eqb_eq in H1. apply Z.leb_le in H2. lia.
Qed.

(** Rounding to binary64 keeps the number, or shifts its mantissa
    left until it has 53 bits; nothing is rounded off. *)
Lemma py_float_finite s m e :
  is_binary prec emax (S754_finite s m e) ->
  exists m' e', py_float (S754_finite s m e) = S754_finite s m' e' /\
                Qeq (F2Q s m' e') (F2Q s m e).
Proof.
  intros H. apply binary_bounds in H. destruct H as [Hd He].
  unfold py_float, binary_round.
  remember (digits2_pos m) as d eqn:Ed.
  remember (fexp 53 1024 (Zpos d + e)) as e' eqn:Ee'.
  assert (He' : e' <= e /\ e' <= 971 /\
                forall k, Zpos k + e' = Zpos d + e ->
                          fexp 53 1024 (Zpos k + e') = e').
  { subst e'. unfold fexp, emin. split; [lia|]. split; [lia|].
    intros k Hk. lia. }
  clear Ee'. destruct He' as (Hle & Hmax & Hfix).
  assert (Hb : (e' <=? 1024 - 53) = true) by (apply Z.leb_le; lia).
  unfold shl_align. destruct (e' - e) as [|p|p] eqn:Hp; try lia.
  - (* already aligned *)
    assert (e' = e) by lia. subst e'.
    exists m, e. split; [|reflexivity].
    unfold binary_round_aux, shr_fexp. cbn [Zdigits2 shr_record_of_loc].
    rewrite <- Ed, (Hfix d), Z.sub_diag by lia.
    cbn [shr shr_m loc_of_shr_record round_nearest_even Zdigits2].
    rewrite <- Ed, (Hfix d), Z.sub_diag by lia.
    cbn [shr shr_m]. rewrite Hb. reflexivity.
  - (* shifted left by p bits *)
    exists (Pos.iter xO m p), e'. split.
    + unfold binary_round_aux, shr_fexp. cbn [Zdigits2 shr_record_of_loc].
      rewrite digits2_iter_xO, <- Ed.
      rewrite (Hfix (d + p)%positive), Z.sub_diag by lia.
      cbn [shr shr_m loc_of_shr_record round_nearest_even Zdigits2].
      rewrite digits2_iter_xO, <- Ed.
      rewrite (Hfix (d + p)%positive), Z.sub_diag by lia.
      cbn [shr shr_m]. rewrite Hb. reflexivity.
    + replace e' with (e - Zpos p) by lia. apply F2Q_shift.
Qed.
End Format.

Lemma py_float_np_finite s m e :
  is_np_float (S754_finite s m e) ->
  exists m' e', py_float (S754_finite s m e) = S754_finite s m' e' /\
                Qeq (F2Q s m' e') (F2Q s m e).
Proof.
  intros [H|[H|H]]; revert H; apply py_float_finite; lia.
Qed.

Lemma py_float_exact x : is_np_float x -> same_value (py_float x) x.
Proof.
  destruct x as [s|s| |s m e]; intros H; try reflexivity.
  destruct (py_float_np_finite s m e H) as (m' & e' & -> & Hv).
  exact Hv.
Qed.

Lemma py_float_in_unit_interval x :
  is_np_float x -> in_unit_interval x -> in_unit_interval (py_float x).
Proof.
  destruct x as [s|s| |s m e]; intros H Hu; try exact Hu.
  destruct (py_float_np_finite s m e H) as (m' & e' & -> & Hv).
  simpl in *. rewrite Hv. exact Hu.
Qed.

End Widening.

(** ** The result-assembly step *)

Lemma assemble_unfold labels name shp scores i m :
  np.argmax scores = Ok i -> np.max scores = Ok m ->
  assemble labels name shp [scores] =
  match nth_error labels i with
  | Some label => Ok {| filename := name;
                        prediction := label;
                        confidence := py_float m;
                        class_index := i;
                        shape := str_tuple shp |}
  | None => Raise IndexError
  end.
Proof.
  intros Hi Hm. unfold assemble, getitem. simpl. rewrite Hi. simpl.
  destruct (nth_error labels i); simpl; [rewrite Hm|]; reflexivity.
Qed.

Lemma max_in scores m : np.max scores = Ok m -> In m scores.
Proof.
  destruct scores as [|x rest]; [discriminate|]. simpl. intros [= <-].
  revert x. induction rest as [|y rest IH]; intros x; simpl; [auto|].
  destruct (IH (np.maximum x y)) as [H|H]; [|auto].
  unfold np.maximum in H at 1.
  destruct (SFleb y x || is_nan x); auto.
Qed.

(** ** Decoded images *)

Lemma sample_range b : (0 <= np.sample b <= 255)%Q.
Proof.
  unfold np.sample. pose proof (Byte.to_N_bounded b) as Hb. split.
  - change 0%Q with (inject_Z 0). rewrite <- Zle_Qle. lia.
  - change 255%Q with (inject_Z 255). rewrite <- Zle_Qle. lia.
Qed.

Lemma length_flat_map_const {A B} (f : A -> list B) (l : list A) (k : nat) :
  (forall x, In x l -> length (f x) = k) ->
  length (flat_map f l) = length l * k.
Proof.
  induction l as [|a l IH]; intros H; simpl; [reflexivity|].
  rewrite length_app, IH.
  - rewrite H by (left; reflexivity). reflexivity.
  - intros x Hx. apply H. right. exact Hx.
Qed.

Section Decoded.
Variable to_rgb_other : string -> list byte -> byte * byte * byte.
Variable im : PIL.Image.

Lemma decoded_shape :
  np.shape (decoded to_rgb_other im)
  = [snd (PIL.size im); fst (PIL.size im); 3].
Proof. unfold np.array. simpl. destruct (PIL.size im). reflexivity. Qed.

Lemma decoded_dtype : np.dtype (decoded to_rgb_other im) = np.uint8.
Proof. unfold np.array. simpl. destruct (PIL.size im). reflexivity. Qed.

Lemma decoded_length :
  length (np.data (decoded to_rgb_other im))
  = 1 * snd (PIL.size im) * fst (PIL.size im) * 3.
Proof.
  unfold np.array. simpl PIL.size. destruct (PIL.size im) as [w h].
  cbn [np.data PIL.mode_of PIL.convert_RGB PIL.getbands fst snd].
  rewrite (length_flat_map_const _ _ (w * 3)).
  - rewrite length_seq. lia.
  - intros y _. rewrite (length_flat_map_const _ _ 3).
    + rewrite length_seq. reflexivity.
    + intros x _. reflexivity.
Qed.

Lemma decoded_range :
  Forall (fun q => (0 <= q <= 255)%Q) (np.data (decoded to_rgb_other im)).
Proof.
  unfold np.array. simpl PIL.size. destruct (PIL.size im) as [w h].
  cbn [np.data]. apply Forall_forall. intros q Hq.
  apply in_flat_map in Hq. destruct Hq as (y & _ & Hq).
  apply in_flat_map in Hq. destruct Hq as (x & _ & Hq).
  apply in_map_iff in Hq. destruct Hq as (c & <- & _).
  apply sample_range.
Qed.
End Decoded.

(** ** Bilinear resizing *)

Lemma lerp_between (lo hi a b t : Q) :
  (lo <= a <= hi -> lo <= b <= hi -> 0 <= t <= 1 ->
   lo <= a + (b - a) * t <= hi)%Q.
Proof. intros. split; nra. Qed.

Lemma compute_lerp_between lo hi tl tr bl br xl yl :
  (lo <= tl <= hi -> lo <= tr <= hi -> lo <= bl <= hi -> lo <= br <= hi ->
   0 <= xl <= 1 -> 0 <= yl <= 1 ->
   lo <= tf.compute_lerp tl tr bl br xl yl <= hi)%Q.
Proof.
  intros. unfold tf.compute_lerp.
  apply lerp_between; try assumption; apply lerp_between; assumption.
Qed.

Lemma scaler_bound (I N M s : Q) :
  (0 <= s -> M * s == N -> I + 1 <= M -> (I + (1 # 2)) * s - (1 # 2) < N)%Q.
Proof. intros. nra. Qed.

Lemma scaler_lt out_size in_size i :
  i < out_size ->
  (tf.scaler out_size in_size i < inject_Z (Z.of_nat in_size))%Q.
Proof.
  intros Hi. unfold tf.scaler.
  apply scaler_bound with (M := inject_Z (Z.of_nat out_size)).
  - apply Qle_shift_div_l.
    + change 0%Q with (inject_Z 0). rewrite <- Zlt_Qlt. lia.
    + rewrite Qmult_0_l. change 0%Q with (inject_Z 0). rewrite <- Zle_Qle. lia.
  - apply Qmult_div_r. change 0%Q with (inject_Z 0).
    rewrite inject_Z_injective. lia.
  - change 1%Q with (inject_Z 1). rewrite <- inject_Z_plus, <- Zle_Qle. lia.
Qed.

Section Weights.
Variables out_size in_size i : nat.
Hypothesis in_pos : 0 < in_size.

Lemma weights_lower_lt :
  i < out_size ->
  tf.lower (tf.compute_interpolation_weights out_size in_size i) < in_size.
Proof.
  intros Hi. unfold tf.compute_interpolation_weights. cbn [tf.lower].
  pose proof (scaler_lt out_size in_size i Hi) as Hlt.
  pose proof (Qfloor_le (tf.scaler out_size in_size i)) as Hfl.
  assert (H : (Qfloor (tf.scaler out_size in_size i) < Z.of_nat in_size)%Z).
  { rewrite Zlt_Qlt. eapply Qle_lt_trans; eassumption. }
  lia.
Qed.

Lemma weights_upper_lt :
  tf.upper (tf.compute_interpolation_weights out_size in_size i) < in_size.
Proof. unfold tf.compute_interpolation_weights. cbn [tf.upper]. lia. Qed.

Lemma weights_lerp_range :
  (0 <= tf.lerp (tf.compute_interpolation_weights out_size in_size i) <= 1)%Q.
Proof.
  unfold tf.compute_interpolation_weights. cbn [tf.lerp].
  pose proof (Qfloor_le (tf.scaler out_size in_size i)) as Hfl.
  pose proof (Qlt_floor (tf.scaler out_size in_size i)) as Hlt.
  rewrite inject_Z_plus in Hlt. change (inject_Z 1) with 1%Q in Hlt.
  split; lra.
Qed.
End Weights.

(** Every output sample lies between any two bounds on the input
    samples. *)
Lemma resize_image_within (lo hi : Q) images n h w c out_h out_w :
  length images = n * h * w * c -> 0 < h -> 0 < w ->
  Forall (fun q => (lo <= q <= hi)%Q) images ->
  Forall (fun q => (lo <= q <= hi)%Q)
         (tf.resize_image images n h w c out_h out_w).
Proof.
  intros Hlen Hh Hw Hin. unfold tf.resize_image.
  apply Forall_forall. intros q Hq.
  apply in_flat_map in Hq. destruct Hq as (b & Hb & Hq).
  apply in_flat_map in Hq. destruct Hq as (yw & Hyw & Hq).
  apply in_flat_map in Hq. destruct Hq as (xw & Hxw & Hq).
  apply in_map_iff in Hq. destruct Hq as (ch & <- & Hch).
  apply in_seq in Hb, Hch.
  apply in_map_iff in Hyw. destruct Hyw as (y & <- & Hy).
  apply in_map_iff in Hxw. destruct Hxw as (x & <- & Hx).
  apply in_seq in Hy, Hx.
  assert (Hpx : forall y' x', y' < h -> x' < w ->
            (lo <= nth (((b * h + y') * w + x') * c + ch) images 0 <= hi)%Q).
  { intros y' x' Hy' Hx'.
    apply (Forall_nth (fun q => (lo <= q <= hi)%Q)); [exact Hin|].
    rewrite Hlen.
    assert (H1 : b * h + y' + 1 <= n * h) by nia.
    assert (H2 : (b * h + y') * w + x' + 1 <= n * h * w) by nia.
    nia. }
  pose proof (weights_lower_lt out_h h y Hh) as Hyl.
  pose proof (weights_upper_lt out_h h y Hh) as Hyu.
  pose proof (weights_lower_lt out_w w x Hw) as Hxl.
  pose proof (weights_upper_lt out_w w x Hw) as Hxu.
  apply compute_lerp_between;
    try apply Hpx; try apply weights_lerp_range; auto; try lia.
Qed.

Lemma resize_image_length images n h w c out_h out_w :
  length (tf.resize_image images n h w c out_h out_w)
  = n * out_h * out_w * c.
Proof.
  unfold tf.resize_image.
  rewrite (length_flat_map_const _ _ (out_h * (out_w * c))).
  - rewrite length_seq. lia.
  - intros b _. rewrite (length_flat_map_const _ _ (out_w * c)).
    + rewrite length_map, length_seq. reflexivity.
    + intros yw _. rewrite (length_flat_map_const _ _ c).
      * rewrite length_map, length_seq. reflexivity.
      * intros xw _. rewrite length_map, length_seq. reflexivity.
Qed.

(** ** [tf.image.resize] and [preprocess_image] *)

Lemma image_resize_rank3 image h w c out_h out_w :
  np.shape image = [h; w; c] ->
  0 < h -> 0 < w -> 0 < c -> 0 < out_h -> 0 < out_w ->
  tf.image_resize image (out_h, out_w)
  = Ok {| np.shape := [out_h; out_w; c];
          np.dtype := np.float32;
          np.data := tf.resize_image (np.data image) 1 h w c out_h out_w |}.
Proof.
  intros Hs Hh Hw Hc Hoh How. unfold tf.image_resize, tf.resize_bilinear.
  rewrite Hs.
  destruct out_h, out_w, c, h, w; try lia. reflexivity.
Qed.

Lemma image_resize_empty image h w c size :
  np.shape image = [h; w; c] -> h = 0 \/ w = 0 ->
  tf.image_resize image size = Raise InvalidArgumentError.
Proof.
  intros Hs H0. unfold tf.image_resize, tf.resize_bilinear. rewrite Hs.
  destruct size as [out_h out_w].
  destruct (_ || _); [reflexivity|]. destruct (c =? 0); [reflexivity|].
  replace ((h =? 0) || (w =? 0)) with true; [reflexivity|].
  symmetry. apply orb_true_iff. rewrite !Nat.eqb_eq. exact H0.
Qed.

Lemma image_resize_dtype image size out :
  tf.image_resize image size = Ok out -> np.dtype out = np.float32.
Proof.
  unfold tf.image_resize.
  destruct (np.shape image) as [|n [|h [|w [|c [|? ?]]]]]; try discriminate.
  - destruct (tf.resize_bilinear _ _ _ _ _ _); [|discriminate].
    intros [= <-]. reflexivity.
  - destruct (tf.resize_bilinear _ _ _ _ _ _); [|discriminate].
    intros [= <-]. reflexivity.
Qed.

Lemma preprocess_image_rank3 image h w c :
  np.shape image = [h; w; c] -> 0 < h -> 0 < w -> 0 < c ->
  preprocess_image image
  = Ok {| np.shape := [1; fst IMAGE_SIZE; snd IMAGE_SIZE; c];
          np.dtype := np.float32;
          np.data := tf.resize_image (np.data image) 1 h w c
                                     (fst IMAGE_SIZE) (snd IMAGE_SIZE) |}.
Proof.
  intros Hs Hh Hw Hc. unfold preprocess_image.
  change IMAGE_SIZE with (fst IMAGE_SIZE, snd IMAGE_SIZE) at 1.
  rewrite (image_resize_rank3 image h w c)
    by (auto; unfold IMAGE_SIZE; simpl; lia).
  reflexivity.
Qed.

Lemma preprocess_image_empty image h w c :
  np.shape image = [h; w; c] -> h = 0 \/ w = 0 ->
  preprocess_image image = Raise InvalidArgumentError.
Proof.
  intros Hs H0. unfold preprocess_image.
  rewrite (image_resize_empty image h w c) by assumption. reflexivity.
Qed.

Lemma preprocess_image_dtype image batch :
  preprocess_image image = Ok batch -> np.dtype batch = np.float32.
Proof.
  unfold preprocess_image.
  destruct (tf.image_resize image IMAGE_SIZE) as [img|e] eqn:Hr;
    [|discriminate].
  apply image_resize_dtype in Hr. simpl. unfold np.expand_dims.
  destruct (_ <=? _); [|discriminate]. intros [= <-]. exact Hr.
Qed.

(** ** The endpoint *)

Section Endpoint.
Variable Image_open : list byte -> result PIL.Image.
Variable to_rgb_other : string -> list byte -> byte * byte * byte.
Variable MODEL : keras.Model.

Lemma read_file_as_image_ok data im :
  Image_open data = Ok im ->
  read_file_as_image Image_open to_rgb_other data
  = Ok (decoded to_rgb_other im).
Proof. intros H. unfold read_file_as_image. rewrite H. reflexivity. Qed.

Lemma read_file_as_image_raise data e :
  Image_open data = Raise e ->
  read_file_as_image Image_open to_rgb_other data = Raise e.
Proof. intros H. unfold read_file_as_image. rewrite H. reflexivity. Qed.

(** Neither failure of the first two steps reaches the model. *)
Lemma predict_decode_raise file e :
  read_file_as_image Image_open to_rgb_other (fastapi.read file) = Raise e ->
  predict Image_open to_rgb_other MODEL file = ([], Raise e).
Proof.
  intros H. unfold predict. rewrite H. reflexivity.
Qed.

Lemma predict_preprocess_raise file image e :
  read_file_as_image Image_open to_rgb_other (fastapi.read file) = Ok image ->
  preprocess_image image = Raise e ->
  predict Image_open to_rgb_other MODEL file = ([], Raise e).
Proof.
  intros H1 H2. unfold predict.
  rewrite H1. simpl. rewrite H2. reflexivity.
Qed.

(** Once a batch exists the model is invoked on it, and what follows is
    decided by what the model returns. *)
Lemma predict_invokes_model file image batch :
  read_file_as_image Image_open to_rgb_other (fastapi.read file) = Ok image ->
  preprocess_image image = Ok batch ->
  predict Image_open to_rgb_other MODEL file =
  ([ModelInvoked batch],
   match keras.call MODEL batch with
   | Ok preds => assemble CLASS_NAMES (fastapi.filename file)
                          (np.shape image) preds
   | Raise e => Raise e
   end).
Proof.
  intros H1 H2. unfold predict.
  rewrite H1. simpl. rewrite H2. simpl.
  destruct (keras.call MODEL batch); reflexivity.
Qed.
End Endpoint.

Lemma leaf_decodes :
  read_file_as_image Demo.Image_open Demo.to_rgb_other (fastapi.read Demo.leaf)
  = Ok Demo.leaf_image.
Proof. reflexivity. Qed.

Lemma leaf_preprocesses : preprocess_image Demo.leaf_image = Ok Demo.leaf_batch.
Proof.
  exact (preprocess_image_rank3 Demo.leaf_image 2 2 3 eq_refl
           Nat.lt_0_2 Nat.lt_0_2 (Nat.lt_0_succ 2)).
Qed.

(** The endpoint on a concrete upload, with a model that answers
    [0.02, 0.03, 0.95]. *)
Example predict_leaf :
  predict Demo.Image_open Demo.to_rgb_other
          (Demo.constant_model [f32 2 100; f32 3 100; f32 95 100]) Demo.leaf
  = ([ModelInvoked Demo.leaf_batch],
     Ok {| filename := "leaf.jpg";
           prediction := "Healthy";
           confidence := S754_finite false 8556839184629760 (-53);
           class_index := 2;
           shape := "(2, 2, 3)" |}).
Proof.
  rewrite (predict_invokes_model _ _ _ _ _ _ leaf_decodes leaf_preprocesses).
  reflexivity.
Qed.

(** ** What [assemble] and [predict] return *)

Lemma argmax_lt_length scores i : np.argmax scores = Ok i -> i < length scores.
Proof.
  intros Hi. destruct scores as [|x rest] eqn:E; [discriminate|].
  destruct (argmax_first_index_of_max scores) as (i' & m & Hi' & _ & Hat & _).
  - subst. discriminate.
  - subst scores. rewrite Hi in Hi'. injection Hi' as <-.
    apply nth_error_Some. congruence.
Qed.

Lemma assemble_inv labels name shp preds r :
  assemble labels name shp preds = Ok r ->
  exists scores rest i m,
    preds = scores :: rest /\ np.argmax scores = Ok i /\ np.max scores = Ok m /\
    nth_error labels i = Some (prediction r) /\
    confidence r = py_float m /\ class_index r = i.
Proof.
  unfold assemble, getitem. destruct preds as [|scores rest]; [discriminate|].
  simpl. destruct (np.argmax scores) as [i|] eqn:Hi; [|discriminate]. simpl.
  destruct (nth_error labels i) as [label|] eqn:Hl; [|discriminate]. simpl.
  destruct (np.max scores) as [m|] eqn:Hm; [|discriminate]. simpl.
  intros [= <-]. exists scores, rest, i, m. simpl. auto 6.
Qed.

Lemma predict_result Image_open to_rgb_other MODEL file r :
  snd (predict Image_open to_rgb_other MODEL file) = Ok r ->
  exists image batch preds,
    read_file_as_image Image_open to_rgb_other (fastapi.read file) = Ok image /\
    preprocess_image image = Ok batch /\
    keras.call MODEL batch = Ok preds /\
    assemble CLASS_NAMES (fastapi.filename file) (np.shape image) preds = Ok r.
Proof.
  destruct (read_file_as_image Image_open to_rgb_other (fastapi.read file))
    as [image|e] eqn:H1.
  2:{ rewrite (predict_decode_raise _ _ _ _ e H1). discriminate. }
  destruct (preprocess_image image) as [batch|e] eqn:H2.
  2:{ rewrite (predict_preprocess_raise _ _ _ _ image e H1 H2). discriminate. }
  rewrite (predict_invokes_model _ _ _ _ image batch H1 H2). simpl.
  destruct (keras.call MODEL batch) as [preds|e] eqn:H3; [|discriminate].
  intros H4. exists image, batch, preds. auto.
Qed.

Lemma predict_trace Image_open to_rgb_other MODEL file x :
  In (ModelInvoked x) (fst (predict Image_open to_rgb_other MODEL file)) ->
  exists image,
    read_file_as_image Image_open to_rgb_other (fastapi.read file) = Ok image /\
    preprocess_image image = Ok x.
Proof.
  destruct (read_file_as_image Image_open to_rgb_other (fastapi.read file))
    as [image|e] eqn:H1.
  2:{ rewrite (predict_decode_raise _ _ _ _ e H1). intros []. }
  destruct (preprocess_image image) as [batch|e] eqn:H2.
  2:{ rewrite (predict_preprocess_raise _ _ _ _ image e H1 H2). intros []. }
  rewrite (predict_invokes_model _ _ _ _ image batch H1 H2). simpl.
  intros [[= <-]|[]]. exists image. auto.
Qed.

(** ** The claims *)

(** Whatever the sign of a zero, the index found by [np.argmax] is the
    first one whose score equals a maximum of the scores. *)
Lemma first_index_of_max_is_maximum scores i m0 :
  first_index_of_max scores i m0 -> is_maximum scores m0.
Proof.
  intros (Hat & _ & Hub). split; [|exact Hub].
  exists m0. split; [eapply nth_error_In; exact Hat|].
  destruct (is_nan m0) eqn:Hn.
  - right. split; exact Hn.
  - left. apply SFeqb_refl. exact Hn.
Qed.

Lemma first_index_of_any_maximum scores i m0 m :
  first_index_of_max scores i m0 -> is_maximum scores m ->
  first_index_equal_to scores i m.
Proof.
  intros (Hat & Hbefore & Hub) ((x & Hx & Hxm) & Hm).
  pose proof (nth_error_In _ _ Hat) as Hin0.
  destruct (is_nan m0) eqn:Hn0.
  - (* the scores hold a NaN: every maximum is NaN *)
    assert (Hn : is_nan m = true).
    { destruct Hm as [Hn|Hle]; [exact Hn|].
      apply Hle, SFleb_not_nan in Hin0. destruct Hin0. congruence. }
    split.
    + exists m0. split; [exact Hat|]. right. split; assumption.
    + intros j y Hj Hy [He|[Hny _]].
      * apply SFeqb_not_nan in He. destruct He. congruence.
      * destruct (Hbefore j y Hj Hy) as [Hneq _].
        destruct m0; try discriminate. destruct y; try discriminate.
        apply Hneq. reflexivity.
  - (* no NaN: every maximum equals the one at [i] *)
    destruct Hub as [Hn|Hle0]; [congruence|].
    assert (He : SFeqb x m = true).
    { destruct Hxm as [He|[Hnx _]]; [exact He|].
      apply Hle0, SFleb_not_nan in Hx. destruct Hx. congruence. }
    assert (Hn : is_nan m = false) by (apply SFeqb_not_nan in He; tauto).
    destruct Hm as [Hm|Hle]; [congruence|].
    assert (He0 : SFeqb m0 m = true).
    { apply SFleb_antisym; [apply Hle; exact Hin0|].
      eapply SFeqb_leb; [exact He|]. apply Hle0. exact Hx. }
    split.
    + exists m0. split; [exact Hat|]. left. exact He0.
    + intros j y Hj Hy [Hy'|[_ Hn']]; [|congruence].
      destruct (Hbefore j y Hj Hy) as [_ Hneq].
      rewrite (SFeqb_trans_r y m0 m Hy' He0) in Hneq. discriminate.
Qed.

(** C1.  The predicted index is the index of the maximum score, and on
    ties the lowest index wins: for every non-empty scores sequence
    [np.max] returns a maximum of the scores, and the index returned by
    [np.argmax], which becomes the [class_index] of the result, is the
    first index whose score equals the maximum (under the IEEE
    comparison, so for either zero that a maximum of 0 may be; a NaN
    counts as the maximum); scores [0.5, 0.5, 0.1] give index 0. *)
Theorem predicted_index_is_first_maximum :
  (forall scores, scores <> [] ->
     exists i,
       np.argmax scores = Ok i /\
       (exists m, np.max scores = Ok m /\ is_maximum scores m) /\
       (forall m, is_maximum scores m -> first_index_equal_to scores i m) /\
       forall labels name shp, i < length labels ->
         exists r, assemble labels name shp [scores] = Ok r /\
                   class_index r = i) /\
  (forall name shp,
     exists r, assemble CLASS_NAMES name shp [[f32 1 2; f32 1 2; f32 1 10]]
               = Ok r /\ class_index r = 0).
Proof.
  split.
  - intros scores Hne.
    destruct (argmax_first_index_of_max scores Hne)
      as (i & m0 & Hi & Hm & Hfirst).
    exists i. split; [exact Hi|]. split; [|split].
    + exists m0. split; [exact Hm|].
      exact (first_index_of_max_is_maximum _ _ _ Hfirst).
    + intros m. exact (first_index_of_any_maximum _ _ _ _ Hfirst).
    + intros labels name shp Hlt.
      rewrite (assemble_unfold labels name shp scores i m0 Hi Hm).
      destruct (nth_error labels i) as [label|] eqn:Hl.
      * eexists. split; reflexivity.
      * apply nth_error_None in Hl. lia.
  - intros name shp. eexists. split; reflexivity.
Qed.

Lemma predicted_index_is_first_maximum_witness :
  [S754_zero true; S754_zero false; f32 (-1) 1] <> [] /\
  is_maximum [S754_zero true; S754_zero false; f32 (-1) 1] (S754_zero false) /\
  exists i,
    np.argmax [S754_zero true; S754_zero false; f32 (-1) 1] = Ok i /\
    first_index_equal_to [S754_zero true; S754_zero false; f32 (-1) 1] i
                         (S754_zero false) /\
    forall labels name shp, i < length labels ->
      exists r,
        assemble labels name shp
                 [[S754_zero true; S754_zero false; f32 (-1) 1]] = Ok r /\
        class_index r = i.
Proof.
  assert (Hne : [S754_zero true; S754_zero false; f32 (-1) 1] <> [])
    by discriminate.
  assert (Hmax : is_maximum [S754_zero true; S754_zero false; f32 (-1) 1]
                            (S754_zero false)).
  { split.
    - exists (S754_zero false). split; [right; left; reflexivity|].
      left. reflexivity.
    - right. intros y [<-|[<-|[<-|[]]]]; reflexivity. }
  split; [exact Hne|]. split; [exact Hmax|].
  destruct (proj1 predicted_index_is_first_maximum _ Hne)
    as (i & Hi & _ & Hfirst & Hasm).
  exists i. split; [exact Hi|]. split; [exact (Hfirst _ Hmax)|exact Hasm].
Defined.

(** C2.  The confidence is the maximum score itself: for every non-empty
    sequence of NumPy floats, [np.max] returns one of the scores, an upper
    bound of all of them, and the confidence of the result denotes exactly
    that value (the conversion to a Python float rounds nothing off, and no
    other operation is applied). *)
Theorem confidence_is_maximum_score :
  forall scores, scores <> [] -> Forall is_np_float scores ->
    exists m,
      np.max scores = Ok m /\ In m scores /\
      (is_nan m = true \/ forall x, In x scores -> SFleb x m = true) /\
      (forall labels name shp, length scores <= length labels ->
         exists r, assemble labels name shp [scores] = Ok r) /\
      (forall labels name shp r,
         assemble labels name shp [scores] = Ok r ->
         confidence r = py_float m /\ same_value (confidence r) m).
Proof.
  intros scores Hne Hfl.
  destruct (argmax_first_index_of_max scores Hne)
    as (i & m & Hi & Hm & Hat & _ & Hub).
  exists m. split; [exact Hm|]. split; [exact (max_in _ _ Hm)|].
  split; [exact Hub|]. split.
  - intros labels name shp Hlen.
    rewrite (assemble_unfold labels name shp scores i m Hi Hm).
    destruct (nth_error labels i) as [label|] eqn:Hl; [eauto|].
    apply nth_error_None in Hl. apply argmax_lt_length in Hi. lia.
  - intros labels name shp r Hr.
    rewrite (assemble_unfold labels name shp scores i m Hi Hm) in Hr.
    destruct (nth_error labels i); [|discriminate].
    injection Hr as <-. simpl. split; [reflexivity|]. apply py_float_exact.
    rewrite Forall_forall in Hfl. apply Hfl. exact (max_in _ _ Hm).
Qed.

Lemma confidence_is_maximum_score_witness :
  [f32 2 100; f32 3 100; f32 95 100] <> [] /\
  Forall is_np_float [f32 2 100; f32 3 100; f32 95 100] /\
  exists m,
    np.max [f32 2 100; f32 3 100; f32 95 100] = Ok m /\
    In m [f32 2 100; f32 3 100; f32 95 100] /\
    (is_nan m = true \/
     forall x, In x [f32 2 100; f32 3 100; f32 95 100] -> SFleb x m = true) /\
    (forall labels name shp, 3 <= length labels ->
       exists r, assemble labels name shp [[f32 2 100; f32 3 100; f32 95 100]]
                 = Ok r) /\
    (forall labels name shp r,
       assemble labels name shp [[f32 2 100; f32 3 100; f32 95 100]] = Ok r ->
       confidence r = py_float m /\ same_value (confidence r) m).
Proof.
  assert (Hne : [f32 2 100; f32 3 100; f32 95 100] <> []) by discriminate.
  assert (Hfl : Forall is_np_float [f32 2 100; f32 3 100; f32 95 100])
    by (repeat constructor; right; left; reflexivity).
  split; [exact Hne|]. split; [exact Hfl|].
  exact (confidence_is_maximum_score _ Hne Hfl).
Defined.

(** C3.  With a codec that, like Pillow, never returns an image of zero
    width or height: every image that decodes successfully yields a
    3-channel array whose height and width are those of the source,
    whatever its mode, and [preprocess_image] turns that array into a
    batch of shape (1, H, W, 3) with that many samples, (H, W) being the
    target size [IMAGE_SIZE]; resizing to any other non-zero target size
    (H, W) and adding the batch axis gives (1, H, W, 3) as well. *)
Theorem decode_then_preprocess_shape :
  forall Image_open to_rgb_other,
    (forall data im, Image_open data = Ok im ->
                     0 < fst (PIL.size im) /\ 0 < snd (PIL.size im)) ->
    forall data image,
      read_file_as_image Image_open to_rgb_other data = Ok image ->
      (exists im,
         Image_open data = Ok im /\
         np.shape image = [snd (PIL.size im); fst (PIL.size im); 3]) /\
      (exists batch,
         preprocess_image image = Ok batch /\
         np.shape batch = [1; fst IMAGE_SIZE; snd IMAGE_SIZE; 3] /\
         length (np.data batch) = 1 * fst IMAGE_SIZE * snd IMAGE_SIZE * 3) /\
      (forall H W, 0 < H -> 0 < W ->
         exists img batch,
           tf.image_resize image (H, W) = Ok img /\
           np.expand_dims img 0 = Ok batch /\
           np.shape batch = [1; H; W; 3]).
Proof.
  intros Image_open to_rgb_other Hcodec data image Hd.
  unfold read_file_as_image in Hd.
  destruct (Image_open data) as [im|e] eqn:Hopen; [|discriminate].
  injection Hd as <-. destruct (Hcodec data im Hopen) as [Hw Hh].
  pose proof (decoded_shape to_rgb_other im) as Hshape.
  split; [exists im; split; [reflexivity|exact Hshape]|]. split.
  - eexists. split; [|split].
    + apply (preprocess_image_rank3 _ _ _ 3 Hshape); lia.
    + reflexivity.
    + cbn [np.data]. apply resize_image_length.
  - intros H W HH HW. do 2 eexists. split; [|split].
    + apply (image_resize_rank3 _ _ _ 3 H W Hshape); lia.
    + reflexivity.
    + reflexivity.
Qed.

Lemma samples_codec_never_empty data im :
  Samples.Image_open data = Ok im ->
  0 < fst (PIL.size im) /\ 0 < snd (PIL.size im).
Proof.
  unfold Samples.Image_open.
  destruct data as [|side [|value rest]]; try discriminate.
  destruct (Byte.to_nat side =? 0) eqn:Hs; [discriminate|].
  intros [= <-]. apply Nat.eqb_neq in Hs. simpl. lia.
Qed.

Lemma decode_then_preprocess_shape_witness :
  (forall data im, Samples.Image_open data = Ok im ->
                   0 < fst (PIL.size im) /\ 0 < snd (PIL.size im)) /\
  read_file_as_image Samples.Image_open Demo.to_rgb_other [x02; x80]
  = Ok Demo.leaf_image /\
  np.shape Demo.leaf_image = [2; 2; 3] /\
  exists batch,
    preprocess_image Demo.leaf_image = Ok batch /\
    np.shape batch = [1; 256; 256; 3] /\
    length (np.data batch) = 1 * 256 * 256 * 3.
Proof.
  split; [exact samples_codec_never_empty|]. split; [reflexivity|].
  split; [reflexivity|].
  exact (proj1 (proj2 (decode_then_preprocess_shape
                         Samples.Image_open Demo.to_rgb_other
                         samples_codec_never_empty [x02; x80]
                         Demo.leaf_image eq_refl))).
Defined.

(** C4.  When the codec does not accept the bytes, [read_file_as_image]
    raises the codec's exception (the spec's DecodeError), [predict] passes
    it on to its caller without invoking the model, and no array is
    returned; an array is returned only for bytes that the codec decoded. *)
Theorem decode_error_reaches_caller :
  forall Image_open to_rgb_other MODEL,
    (forall file e,
       Image_open (fastapi.read file) = Raise e ->
       read_file_as_image Image_open to_rgb_other (fastapi.read file)
       = Raise e /\
       predict Image_open to_rgb_other MODEL file = ([], Raise e)) /\
    (forall data image,
       read_file_as_image Image_open to_rgb_other data = Ok image ->
       exists im, Image_open data = Ok im /\
                  image = decoded to_rgb_other im).
Proof.
  intros Image_open to_rgb_other MODEL. split.
  - intros file e He.
    pose proof (read_file_as_image_raise Image_open to_rgb_other _ e He) as Hd.
    split; [exact Hd|]. apply predict_decode_raise. exact Hd.
  - intros data image. unfold read_file_as_image.
    destruct (Image_open data) as [im|e]; [|discriminate].
    intros [= <-]. exists im. auto.
Qed.

Lemma decode_error_reaches_caller_witness :
  Demo.Image_open [] = Raise UnidentifiedImageError /\
  read_file_as_image Demo.Image_open Demo.to_rgb_other []
  = Raise UnidentifiedImageError /\
  predict Demo.Image_open Demo.to_rgb_other Demo.model_128 Demo.empty_upload
  = ([], Raise UnidentifiedImageError).
Proof.
  split; [reflexivity|].
  exact (proj1 (decode_error_reaches_caller Demo.Image_open Demo.to_rgb_other
                  Demo.model_128)
               Demo.empty_upload UnidentifiedImageError eq_refl).
Defined.

(** C5, as the code has it.  The result-assembly step compares no
    lengths.  With an empty scores sequence it raises ValueError; otherwise
    it succeeds exactly when the index of the maximum score is an index of
    the labels table, and raises IndexError when it is not.  In particular
    it succeeds whenever the labels are at least as many as the scores. *)
Theorem assemble_checks_no_lengths :
  forall labels name shp scores,
    (scores = [] -> assemble labels name shp [scores] = Raise ValueError) /\
    (forall i, np.argmax scores = Ok i -> i < length labels ->
       exists r, assemble labels name shp [scores] = Ok r /\
                 class_index r = i) /\
    (forall i, np.argmax scores = Ok i -> length labels <= i ->
       assemble labels name shp [scores] = Raise IndexError) /\
    (scores <> [] -> length scores <= length labels ->
       exists r, assemble labels name shp [scores] = Ok r) /\
    (forall e, assemble labels name shp [scores] = Raise e ->
       scores = [] \/ length labels < length scores).
Proof.
  intros labels name shp scores.
  assert (Hok : forall i, np.argmax scores = Ok i -> i < length labels ->
            exists r, assemble labels name shp [scores] = Ok r /\
                      class_index r = i).
  { intros i Hi Hlt.
    destruct scores as [|x rest] eqn:E; [discriminate|]. rewrite <- E in *.
    assert (Hm : exists m, np.max scores = Ok m) by (subst; simpl; eauto).
    destruct Hm as [m Hm].
    rewrite (assemble_unfold labels name shp scores i m Hi Hm).
    destruct (nth_error labels i) as [label|] eqn:Hl.
    - eexists. split; reflexivity.
    - apply nth_error_None in Hl. lia. }
  split; [intros ->; reflexivity|]. split; [exact Hok|]. split.
  - intros i Hi Hge.
    destruct scores as [|x rest] eqn:E; [discriminate|]. rewrite <- E in *.
    assert (Hm : exists m, np.max scores = Ok m) by (subst; simpl; eauto).
    destruct Hm as [m Hm].
    rewrite (assemble_unfold labels name shp scores i m Hi Hm).
    apply nth_error_None in Hge. rewrite Hge. reflexivity.
  - assert (Hlen : scores <> [] -> length scores <= length labels ->
              exists r, assemble labels name shp [scores] = Ok r).
    { intros Hne Hlen.
      destruct (argmax_first_index_of_max scores Hne) as (i & m & Hi & _).
      destruct (Hok i Hi) as (r & Hr & _); [|eauto].
      apply argmax_lt_length in Hi. lia. }
    split; [exact Hlen|].
    intros e He. destruct scores as [|x rest] eqn:E; [auto|]. right.
    rewrite <- E in *.
    destruct (Nat.le_gt_cases (length scores) (length labels)) as [Hle|Hgt];
      [|exact Hgt].
    destruct (Hlen ltac:(subst; discriminate) Hle) as [r Hr]. congruence.
Qed.

Lemma assemble_checks_no_lengths_witness :
  (exists r, assemble (CLASS_NAMES ++ ["Unknown"%string]) "leaf.jpg" [2; 2; 3]
                      [[f32 1 2; f32 1 2; f32 1 10]] = Ok r /\
             class_index r = 0) /\
  assemble CLASS_NAMES "leaf.jpg" [2; 2; 3]
           [[f32 1 10; f32 1 10; f32 1 10; f32 1 2]] = Raise IndexError /\
  assemble CLASS_NAMES "leaf.jpg" [2; 2; 3] [[]] = Raise ValueError.
Proof.
  split; [|split].
  - apply (proj1 (proj2 (assemble_checks_no_lengths
                           (CLASS_NAMES ++ ["Unknown"%string]) "leaf.jpg"
                           [2; 2; 3] [f32 1 2; f32 1 2; f32 1 10]))).
    + reflexivity.
    + simpl. lia.
  - apply (proj1 (proj2 (proj2 (assemble_checks_no_lengths
                                  CLASS_NAMES "leaf.jpg" [2; 2; 3]
                                  [f32 1 10; f32 1 10; f32 1 10; f32 1 2]))) 3).
    + reflexivity.
    + simpl. lia.
  - apply (proj1 (assemble_checks_no_lengths CLASS_NAMES "leaf.jpg"
                    [2; 2; 3] [])).
    reflexivity.
Defined.

(** C5 as stated fails: three scores with four labels are assembled into a
    result, no error is raised. *)
Lemma three_scores_four_labels_succeed :
  ~ (forall labels name shp scores,
       length scores <> length labels ->
       exists e, assemble labels name shp [scores] = Raise e).
Proof.
  intros H.
  destruct (H (CLASS_NAMES ++ ["Unknown"%string]) "leaf.jpg"%string [2; 2; 3]
              [f32 1 2; f32 1 2; f32 1 10]) as [e He].
  - simpl. lia.
  - discriminate He.
Qed.

(** The result-assembly step returns a result or raises IndexError or
    ValueError. *)
Lemma assemble_outcome labels name shp preds :
  (exists r, assemble labels name shp preds = Ok r) \/
  assemble labels name shp preds = Raise IndexError \/
  assemble labels name shp preds = Raise ValueError.
Proof.
  destruct preds as [|scores rest]; [right; left; reflexivity|].
  destruct scores as [|x xs] eqn:E; [right; right; reflexivity|].
  rewrite <- E.
  destruct (argmax_first_index_of_max scores ltac:(subst; discriminate))
    as (i & m & Hi & Hm & _).
  change (assemble labels name shp (scores :: rest))
    with (assemble labels name shp [scores]).
  rewrite (assemble_unfold labels name shp scores i m Hi Hm).
  destruct (nth_error labels i).
  - left. eexists. reflexivity.
  - right. left. reflexivity.
Qed.

(** C6, as the code has it.  [predict] does not compare the shape of the
    batch with the input shape of the model: every batch that
    [preprocess_image] returns is passed to the model.  An exception of
    the model is the outcome of the call; scores that the model returns go
    to the result-assembly step, whose outcome (a result, an IndexError or
    a ValueError) is the outcome of the call; and the input shape that the
    model declares has no influence on what [predict] does. *)
Theorem batch_reaches_model_unchecked :
  forall Image_open to_rgb_other MODEL file image batch,
    read_file_as_image Image_open to_rgb_other (fastapi.read file) = Ok image ->
    preprocess_image image = Ok batch ->
    fst (predict Image_open to_rgb_other MODEL file) = [ModelInvoked batch] /\
    (forall e, keras.call MODEL batch = Raise e ->
       snd (predict Image_open to_rgb_other MODEL file) = Raise e) /\
    (forall preds, keras.call MODEL batch = Ok preds ->
       snd (predict Image_open to_rgb_other MODEL file)
       = assemble CLASS_NAMES (fastapi.filename file) (np.shape image) preds) /\
    (forall expected,
       predict Image_open to_rgb_other
               {| keras.input_shape := expected;
                  keras.call := keras.call MODEL |} file
       = predict Image_open to_rgb_other MODEL file) /\
    (forall preds, keras.call MODEL batch = Ok preds ->
       (exists r, snd (predict Image_open to_rgb_other MODEL file) = Ok r) \/
       snd (predict Image_open to_rgb_other MODEL file) = Raise IndexError \/
       snd (predict Image_open to_rgb_other MODEL file) = Raise ValueError).
Proof.
  intros Image_open to_rgb_other MODEL file image batch H1 H2.
  rewrite (predict_invokes_model _ _ _ _ image batch H1 H2). simpl.
  split; [reflexivity|]. split; [|split; [|split]].
  - intros e ->. reflexivity.
  - intros preds ->. reflexivity.
  - intros expected.
    rewrite (predict_invokes_model _ _ _ _ image batch H1 H2). reflexivity.
  - intros preds ->. apply assemble_outcome.
Qed.

Lemma batch_reaches_model_unchecked_witness :
  read_file_as_image Demo.Image_open Demo.to_rgb_other (fastapi.read Demo.leaf)
  = Ok Demo.leaf_image /\
  preprocess_image Demo.leaf_image = Ok Demo.leaf_batch /\
  keras.compatible (keras.input_shape Demo.model_128) (np.shape Demo.leaf_batch)
  = false /\
  fst (predict Demo.Image_open Demo.to_rgb_other Demo.model_128 Demo.leaf)
  = [ModelInvoked Demo.leaf_batch] /\
  snd (predict Demo.Image_open Demo.to_rgb_other Demo.model_128 Demo.leaf)
  = Raise ValueError.
Proof.
  split; [exact leaf_decodes|]. split; [exact leaf_preprocesses|].
  split; [reflexivity|].
  destruct (batch_reaches_model_unchecked Demo.Image_open Demo.to_rgb_other
              Demo.model_128 Demo.leaf _ _ leaf_decodes leaf_preprocesses)
    as (Ht & He & _).
  split; [exact Ht|]. apply He. reflexivity.
Defined.

(** C6 as stated fails: a batch of shape (1, 256, 256, 3) is passed to a
    model built for (None, 128, 128, 3); the model is invoked on it, and
    here it answers three scores, from which [predict] assembles a
    result. *)
Lemma mismatched_batch_invokes_model :
  ~ (forall Image_open to_rgb_other MODEL file image batch,
       read_file_as_image Image_open to_rgb_other (fastapi.read file)
       = Ok image ->
       preprocess_image image = Ok batch ->
       keras.compatible (keras.input_shape MODEL) (np.shape batch) = false ->
       exists e, predict Image_open to_rgb_other MODEL file = ([], Raise e)).
Proof.
  intros H.
  destruct (H Demo.Image_open Demo.to_rgb_other Demo.pooling_model_128 Demo.leaf
              _ _ leaf_decodes leaf_preprocesses eq_refl) as [e He].
  rewrite (predict_invokes_model _ _ _ _ _ _ leaf_decodes leaf_preprocesses)
    in He.
  discriminate He.
Qed.

(** C7.  An image array of zero height or zero width, as a decoded image
    of zero width or height is, makes [preprocess_image] raise
    (TensorFlow's InvalidArgumentError, the spec's ShapeError); no batch is
    produced, and [predict] passes the exception on without invoking the
    model. *)
Theorem preprocess_rejects_empty_image :
  (forall image h w c,
     np.shape image = [h; w; c] -> h = 0 \/ w = 0 ->
     preprocess_image image = Raise InvalidArgumentError) /\
  (forall to_rgb_other im,
     fst (PIL.size im) = 0 \/ snd (PIL.size im) = 0 ->
     preprocess_image (decoded to_rgb_other im) = Raise InvalidArgumentError /\
     forall Image_open MODEL file,
       Image_open (fastapi.read file) = Ok im ->
       predict Image_open to_rgb_other MODEL file
       = ([], Raise InvalidArgumentError)).
Proof.
  split; [exact preprocess_image_empty|].
  intros to_rgb_other im H0.
  assert (Hp : preprocess_image (decoded to_rgb_other im)
               = Raise InvalidArgumentError).
  { apply (preprocess_image_empty _ _ _ 3 (decoded_shape to_rgb_other im)).
    tauto. }
  split; [exact Hp|].
  intros Image_open MODEL file Hopen.
  apply (predict_preprocess_raise _ _ _ _ _ _
           (read_file_as_image_ok _ _ _ _ Hopen) Hp).
Qed.

Lemma preprocess_rejects_empty_image_witness :
  fst (PIL.size Demo.empty_image) = 0 /\
  Demo.Image_open (fastapi.read Demo.empty_leaf) = Ok Demo.empty_image /\
  preprocess_image (decoded Demo.to_rgb_other Demo.empty_image)
  = Raise InvalidArgumentError /\
  predict Demo.Image_open Demo.to_rgb_other Demo.model_128 Demo.empty_leaf
  = ([], Raise InvalidArgumentError) /\
  preprocess_image {| np.shape := [0; 5; 3]; np.dtype := np.uint8;
                      np.data := [] |}
  = Raise InvalidArgumentError.
Proof.
  split; [reflexivity|]. split; [reflexivity|].
  destruct (proj2 preprocess_rejects_empty_image Demo.to_rgb_other
                  Demo.empty_image (or_introl eq_refl)) as [Hp Hrun].
  split; [exact Hp|]. split.
  - exact (Hrun Demo.Image_open Demo.model_128 Demo.empty_leaf eq_refl).
  - exact (proj1 preprocess_rejects_empty_image
                 {| np.shape := [0; 5; 3]; np.dtype := np.uint8;
                    np.data := [] |} 0 5 3 eq_refl (or_introl eq_refl)).
Defined.

(** C8.  [preprocess_image] does not rescale the samples.  The decoded
    samples lie in 0..255, and whenever two numbers bound all samples of
    the decoded image they bound all samples of the batch as well: the
    batch stays in 0..255, and an image whose samples all equal [v] gives a
    batch whose samples all equal [v] (255 stays 255, it does not become
    1). *)
Theorem preprocess_keeps_native_range :
  forall to_rgb_other im,
    samples_within 0 255 (decoded to_rgb_other im) /\
    (0 < fst (PIL.size im) -> 0 < snd (PIL.size im) ->
     exists batch,
       preprocess_image (decoded to_rgb_other im) = Ok batch /\
       (forall lo hi,
          samples_within lo hi (decoded to_rgb_other im) ->
          samples_within lo hi batch) /\
       (forall v,
          Forall (Qeq v) (np.data (decoded to_rgb_other im)) ->
          Forall (Qeq v) (np.data batch))).
Proof.
  intros to_rgb_other im. split; [apply decoded_range|].
  intros Hw Hh. eexists. split; [|split].
  - apply (preprocess_image_rank3 _ _ _ 3 (decoded_shape to_rgb_other im)); lia.
  - intros lo hi Hin. unfold samples_within. cbn [np.data].
    apply resize_image_within; try assumption.
    apply decoded_length.
  - intros v Hv. cbn [np.data].
    assert (Hin : Forall (fun q => (v <= q <= v)%Q)
                         (np.data (decoded to_rgb_other im))).
    { revert Hv. apply Forall_impl. intros q Hq. rewrite Hq.
      split; apply Qle_refl. }
    apply (resize_image_within v v _ 1 _ _ 3 (fst IMAGE_SIZE) (snd IMAGE_SIZE)
             (decoded_length to_rgb_other im) Hh Hw) in Hin.
    revert Hin. apply Forall_impl. intros q [H1 H2].
    apply Qle_antisym; assumption.
Qed.

Lemma white_image_samples :
  Forall (Qeq 255) (np.data (decoded Demo.to_rgb_other Demo.white_image)).
Proof.
  apply Forall_forall. intros q Hq.
  repeat (destruct Hq as [<-|Hq]; [reflexivity|]). destruct Hq.
Qed.

Lemma preprocess_keeps_native_range_witness :
  PIL.size Demo.white_image = (2, 2) /\
  Forall (Qeq 255) (np.data (decoded Demo.to_rgb_other Demo.white_image)) /\
  exists batch,
    preprocess_image (decoded Demo.to_rgb_other Demo.white_image) = Ok batch /\
    Forall (Qeq 255) (np.data batch).
Proof.
  split; [reflexivity|]. split; [exact white_image_samples|].
  destruct (proj2 (preprocess_keeps_native_range Demo.to_rgb_other
                     Demo.white_image)
                  Nat.lt_0_2 Nat.lt_0_2) as (batch & Hb & _ & Hr).
  exists batch. split; [exact Hb|]. apply Hr. exact white_image_samples.
Defined.

(** C9, as the code has it.  The confidence is the maximum score and
    nothing bounds it: it lies in [0, 1] whenever the scores that the model
    returns do. *)
Theorem confidence_in_unit_interval_when_scores_are :
  forall Image_open to_rgb_other MODEL file r,
    (forall batch preds scores,
       keras.call MODEL batch = Ok preds -> nth_error preds 0 = Some scores ->
       Forall (fun s => is_np_float s /\ in_unit_interval s) scores) ->
    snd (predict Image_open to_rgb_other MODEL file) = Ok r ->
    in_unit_interval (confidence r).
Proof.
  intros Image_open to_rgb_other MODEL file r Hmodel Hr.
  apply predict_result in Hr.
  destruct Hr as (image & batch & preds & _ & _ & Hcall & Hasm).
  apply assemble_inv in Hasm.
  destruct Hasm as (scores & rest & i & m & -> & _ & Hm & _ & -> & _).
  specialize (Hmodel batch _ scores Hcall eq_refl).
  rewrite Forall_forall in Hmodel.
  destruct (Hmodel m (max_in _ _ Hm)) as [Hf Hu].
  apply py_float_in_unit_interval; assumption.
Qed.

Lemma unit_scores_model :
  forall (batch : np.ndarray) preds scores,
    keras.call (Demo.constant_model [f32 2 100; f32 3 100; f32 95 100]) batch
    = Ok preds ->
    nth_error preds 0 = Some scores ->
    Forall (fun s => is_np_float s /\ in_unit_interval s) scores.
Proof.
  intros batch preds scores [= <-] [= <-].
  repeat constructor; try (right; left; reflexivity);
    simpl; unfold Qle; simpl; lia.
Qed.

Lemma confidence_in_unit_interval_when_scores_are_witness :
  exists r,
    snd (predict Demo.Image_open Demo.to_rgb_other
           (Demo.constant_model [f32 2 100; f32 3 100; f32 95 100]) Demo.leaf)
    = Ok r /\
    confidence r = S754_finite false 8556839184629760 (-53) /\
    in_unit_interval (confidence r).
Proof.
  eexists. split; [rewrite predict_leaf; reflexivity|].
  split; [reflexivity|].
  apply (confidence_in_unit_interval_when_scores_are
           Demo.Image_open Demo.to_rgb_other
           (Demo.constant_model [f32 2 100; f32 3 100; f32 95 100]) Demo.leaf).
  - exact unit_scores_model.
  - rewrite predict_leaf. reflexivity.
Defined.

(** C9 as stated fails: with a model that answers [2.0, 0.5, 0.1] the
    endpoint returns a result whose confidence is 2.0. *)
Lemma confidence_two :
  ~ (forall Image_open to_rgb_other MODEL file r,
       snd (predict Image_open to_rgb_other MODEL file) = Ok r ->
       in_unit_interval (confidence r)).
Proof.
  intros H.
  specialize (H Demo.Image_open Demo.to_rgb_other
                (Demo.constant_model [f32 2 1; f32 1 2; f32 1 10]) Demo.leaf
                {| filename := "leaf.jpg";
                   prediction := "Early_blight";
                   confidence := S754_finite false 4503599627370496 (-51);
                   class_index := 0;
                   shape := "(2, 2, 3)" |}).
  rewrite (predict_invokes_model _ _ _ _ _ _ leaf_decodes leaf_preprocesses)
    in H.
  specialize (H eq_refl). destruct H as [_ H].
  vm_compute in H. apply H. reflexivity.
Qed.

(** C10.  The decoded image has dtype uint8, every batch that
    [preprocess_image] returns has dtype float32 with its samples still in
    0..255, and so has every batch on which [predict] invokes the model. *)
Theorem batch_is_float32 :
  forall Image_open to_rgb_other MODEL,
    (forall im,
       np.dtype (decoded to_rgb_other im) = np.uint8 /\
       (0 < fst (PIL.size im) -> 0 < snd (PIL.size im) ->
        exists batch,
          preprocess_image (decoded to_rgb_other im) = Ok batch /\
          np.dtype batch = np.float32 /\ samples_within 0 255 batch)) /\
    (forall image batch,
       preprocess_image image = Ok batch -> np.dtype batch = np.float32) /\
    (forall file x,
       In (ModelInvoked x) (fst (predict Image_open to_rgb_other MODEL file)) ->
       np.dtype x = np.float32).
Proof.
  intros Image_open to_rgb_other MODEL. split; [|split].
  - intros im. split; [apply decoded_dtype|]. intros Hw Hh.
    eexists. split; [|split].
    + apply (preprocess_image_rank3 _ _ _ 3 (decoded_shape to_rgb_other im));
        lia.
    + reflexivity.
    + unfold samples_within. cbn [np.data].
      apply resize_image_within; try assumption.
      * apply decoded_length.
      * apply decoded_range.
  - exact preprocess_image_dtype.
  - intros file x Hx. apply predict_trace in Hx.
    destruct Hx as (image & _ & Hp).
    exact (preprocess_image_dtype _ _ Hp).
Qed.

Lemma batch_is_float32_witness :
  np.dtype Demo.leaf_image = np.uint8 /\
  preprocess_image Demo.leaf_image = Ok Demo.leaf_batch /\
  np.dtype Demo.leaf_batch = np.float32 /\
  samples_within 0 255 Demo.leaf_batch.
Proof.
  split; [reflexivity|]. split; [exact leaf_preprocesses|]. split.
  - exact (proj1 (proj2 (batch_is_float32 Demo.Image_open Demo.to_rgb_other
                           Demo.model_128))
                 Demo.leaf_image Demo.leaf_batch leaf_preprocesses).
  - destruct (proj2 (proj1 (batch_is_float32 Demo.Image_open
                              Demo.to_rgb_other Demo.model_128)
                           {| PIL.mode_of := PIL.L; PIL.size := (2, 2);
                              PIL.getpixel := fun _ => [x80] |})
                    Nat.lt_0_2 Nat.lt_0_2) as (batch & Hb & _ & Hr).
    change (preprocess_image Demo.leaf_image = Ok batch) in Hb.
    rewrite leaf_preprocesses in Hb. injection Hb as <-. exact Hr.
Defined.


(** * Further properties of the endpoint *)

(** ** Indexing the sample lists *)

Lemma nth_flat_map_block {A B} (f : A -> list B) (k : nat) (d : B) (a0 : A) l :
  (forall a, In a l -> length (f a) = k) ->
  forall i j, i < length l -> j < k ->
    nth (i * k + j) (flat_map f l) d = nth j (f (nth i l a0)) d.
Proof.
  induction l as [|a l IH]; intros Hk i j Hi Hj; simpl in Hi; [lia|].
  simpl. destruct i as [|i].
  - simpl. apply app_nth1. rewrite Hk by (left; reflexivity). exact Hj.
  - rewrite app_nth2 by (rewrite Hk by (left; reflexivity); simpl; lia).
    rewrite Hk by (left; reflexivity).
    replace (S i * k + j - k) with (i * k + j) by (simpl; lia).
    apply IH; [|lia|exact Hj]. intros a' Ha'. apply Hk. right. exact Ha'.
Qed.

Lemma nth_map_seq {B} (g : nat -> B) (d : B) n j :
  j < n -> nth j (map g (seq 0 n)) d = g j.
Proof.
  intros Hj.
  rewrite (nth_indep _ d (g 0)) by (rewrite length_map, length_seq; lia).
  rewrite map_nth, seq_nth by lia. reflexivity.
Qed.

Lemma decoded_nth to_rgb_other im x y c :
  x < fst (PIL.size im) -> y < snd (PIL.size im) -> c < 3 ->
  nth ((y * fst (PIL.size im) + x) * 3 + c)
      (np.data (decoded to_rgb_other im)) 0%Q
  = np.sample (nth c (PIL.convert_pixel_RGB to_rgb_other (PIL.mode_of im)
                        (PIL.getpixel im (x, y))) x00).
Proof.
  unfold np.array. simpl PIL.size. destruct (PIL.size im) as [w h].
  cbn [fst snd np.data PIL.mode_of PIL.convert_RGB PIL.getbands PIL.getpixel].
  intros Hx Hy Hc.
  replace ((y * w + x) * 3 + c) with (y * (w * 3) + (x * 3 + c)) by lia.
  rewrite (nth_flat_map_block _ (w * 3) _ 0).
  - rewrite seq_nth by lia. simpl Nat.add.
    rewrite (nth_flat_map_block _ 3 _ 0).
    + rewrite seq_nth by lia. simpl Nat.add.
      rewrite (nth_map_seq (fun c0 => np.sample (nth c0 _ x00))) by lia.
      reflexivity.
    + intros a _. rewrite length_map, length_seq. reflexivity.
    + rewrite length_seq. lia.
    + lia.
  - intros a _. rewrite (length_flat_map_const _ _ 3).
    + rewrite length_seq. reflexivity.
    + intros x0 _. rewrite length_map, length_seq. reflexivity.
  - rewrite length_seq. lia.
  - nia.
Qed.

Lemma resize_image_nth images n h w c out_h out_w b y x ch :
  b < n -> y < out_h -> x < out_w -> ch < c ->
  nth (((b * out_h + y) * out_w + x) * c + ch)
      (tf.resize_image images n h w c out_h out_w) 0%Q
  = let yw := tf.compute_interpolation_weights out_h h y in
    let xw := tf.compute_interpolation_weights out_w w x in
    let px y' x' := nth (((b * h + y') * w + x') * c + ch) images 0%Q in
    tf.compute_lerp (px (tf.lower yw) (tf.lower xw))
                    (px (tf.lower yw) (tf.upper xw))
                    (px (tf.upper yw) (tf.lower xw))
                    (px (tf.upper yw) (tf.upper xw))
                    (tf.lerp xw) (tf.lerp yw).
Proof.
  intros Hb Hy Hx Hch. unfold tf.resize_image.
  set (dw := tf.compute_interpolation_weights 0 0 0).
  assert (H1 : x * c + ch < out_w * c) by nia.
  assert (H2 : y * (out_w * c) + (x * c + ch) < out_h * (out_w * c)).
  { generalize dependent (out_w * c). intros K HK.
    assert (y * K + K <= out_h * K) by nia. lia. }
  replace (((b * out_h + y) * out_w + x) * c + ch)
    with (b * (out_h * (out_w * c)) + (y * (out_w * c) + (x * c + ch))) by lia.
  assert (Hlx : forall yw b0 (xw : tf.CachedInterpolation),
            length (map (fun ch0 =>
              let px y' x' :=
                nth (((b0 * h + y') * w + x') * c + ch0) images 0%Q in
              tf.compute_lerp
                (px (tf.lower yw) (tf.lower xw))
                (px (tf.lower yw) (tf.upper xw))
                (px (tf.upper yw) (tf.lower xw))
                (px (tf.upper yw) (tf.upper xw))
                (tf.lerp xw) (tf.lerp yw)) (seq 0 c)) = c).
  { intros. rewrite length_map, length_seq. reflexivity. }
  rewrite (nth_flat_map_block _ (out_h * (out_w * c)) _ 0).
  - rewrite seq_nth by lia. simpl Nat.add.
    rewrite (nth_flat_map_block _ (out_w * c) _ dw).
    + rewrite (nth_flat_map_block _ c _ dw).
      * rewrite (nth_indep _ dw (tf.compute_interpolation_weights out_h h 0))
          by (rewrite length_map, length_seq; lia).
        rewrite (nth_indep (map _ (seq 0 out_w)) dw
                   (tf.compute_interpolation_weights out_w w 0))
          by (rewrite length_map, length_seq; lia).
        rewrite !map_nth, !seq_nth by lia. simpl Nat.add.
        rewrite (nth_map_seq _ 0%Q c ch Hch). reflexivity.
      * intros a _. apply Hlx.
      * rewrite length_map, length_seq. lia.
      * exact Hch.
    + intros a _. rewrite (length_flat_map_const _ _ c).
      * rewrite length_map, length_seq. reflexivity.
      * intros a' _. apply Hlx.
    + rewrite length_map, length_seq. lia.
    + exact H1.
  - intros a _. rewrite (length_flat_map_const _ _ (out_w * c)).
    + rewrite length_map, length_seq. reflexivity.
    + intros a' _. rewrite (length_flat_map_const _ _ c).
      * rewrite length_map, length_seq. reflexivity.
      * intros a'' _. apply Hlx.
  - rewrite length_seq. lia.
  - exact H2.
Qed.

Lemma scaler_same_size n i :
  0 < n -> (tf.scaler n n i == inject_Z (Z.of_nat i))%Q.
Proof.
  intros Hn. unfold tf.scaler. field.
  change 0%Q with (inject_Z 0). rewrite inject_Z_injective. lia.
Qed.

Lemma weights_same_size n i :
  i < n ->
  tf.lower (tf.compute_interpolation_weights n n i) = i /\
  tf.upper (tf.compute_interpolation_weights n n i) = i.
Proof.
  intros Hi. unfold tf.compute_interpolation_weights. cbn [tf.lower tf.upper].
  rewrite (scaler_same_size n i) by lia. rewrite Qfloor_Z, Qceiling_Z. lia.
Qed.

Lemma compute_lerp_flat v xl yl : (tf.compute_lerp v v v v xl yl == v)%Q.
Proof. unfold tf.compute_lerp. ring. Qed.

Lemma resize_image_same_size images n h w c b y x ch :
  b < n -> y < h -> x < w -> ch < c ->
  (nth (((b * h + y) * w + x) * c + ch) (tf.resize_image images n h w c h w) 0
   == nth (((b * h + y) * w + x) * c + ch) images 0)%Q.
Proof.
  intros Hb Hy Hx Hch. rewrite resize_image_nth by assumption. cbv zeta.
  destruct (weights_same_size h y Hy) as [-> ->].
  destruct (weights_same_size w x Hx) as [-> ->].
  apply compute_lerp_flat.
Qed.

(** ** Inverting the steps of [predict] *)

Lemma read_file_as_image_inv Image_open to_rgb_other data image :
  read_file_as_image Image_open to_rgb_other data = Ok image ->
  exists im, Image_open data = Ok im /\ image = decoded to_rgb_other im.
Proof.
  unfold read_file_as_image.
  destruct (Image_open data) as [im|e]; [|discriminate].
  intros [= <-]. exists im. auto.
Qed.

Lemma preprocess_decoded_positive to_rgb_other im batch :
  preprocess_image (decoded to_rgb_other im) = Ok batch ->
  0 < fst (PIL.size im) /\ 0 < snd (PIL.size im).
Proof.
  intros Hb.
  destruct (Nat.eq_dec (fst (PIL.size im)) 0) as [Hw|Hw];
    [|destruct (Nat.eq_dec (snd (PIL.size im)) 0) as [Hh|Hh]; [|lia]].
  - rewrite (preprocess_image_empty _ _ _ 3 (decoded_shape to_rgb_other im))
      in Hb by (right; exact Hw). discriminate.
  - rewrite (preprocess_image_empty _ _ _ 3 (decoded_shape to_rgb_other im))
      in Hb by (left; exact Hh). discriminate.
Qed.

Lemma assemble_fields labels name shp preds r :
  assemble labels name shp preds = Ok r ->
  filename r = name /\ shape r = str_tuple shp.
Proof.
  unfold assemble, getitem. destruct (nth_error preds 0); [|discriminate].
  simpl. destruct (np.argmax l) as [i|]; [|discriminate]. simpl.
  destruct (nth_error labels i); [|discriminate]. simpl.
  destruct (np.max l); [|discriminate]. simpl.
  intros [= <-]. split; reflexivity.
Qed.

(** ** The properties *)

(** X1.  Every result that [predict] returns is consistent with the upload
    and the labels table: the image was decoded and has non-zero width and
    height, [filename] is the name of the upload, [shape] is the text of
    (height, width, 3) of the decoded image (not of the batch),
    [class_index] is below 3 and [prediction] is the entry of [CLASS_NAMES]
    at [class_index]. *)
Theorem response_fields :
  forall Image_open to_rgb_other MODEL file r,
    snd (predict Image_open to_rgb_other MODEL file) = Ok r ->
    exists im,
      Image_open (fastapi.read file) = Ok im /\
      0 < fst (PIL.size im) /\ 0 < snd (PIL.size im) /\
      filename r = fastapi.filename file /\
      shape r = str_tuple [snd (PIL.size im); fst (PIL.size im); 3] /\
      class_index r < 3 /\
      nth_error CLASS_NAMES (class_index r) = Some (prediction r) /\
      In (prediction r) CLASS_NAMES.
Proof.
  intros Image_open to_rgb_other MODEL file r Hr.
  apply predict_result in Hr.
  destruct Hr as (image & batch & preds & Hd & Hp & _ & Ha).
  apply read_file_as_image_inv in Hd. destruct Hd as (im & Hopen & ->).
  destruct (preprocess_decoded_positive _ _ _ Hp) as [Hw Hh].
  destruct (assemble_fields _ _ _ _ _ Ha) as [Hname Hshape].
  apply assemble_inv in Ha.
  destruct Ha as (scores & rest & i & m & _ & _ & _ & Hl & _ & Hi).
  exists im. rewrite Hi. repeat (split; [assumption|]).
  split; [rewrite Hshape, decoded_shape; reflexivity|].
  split; [|split].
  - change 3 with (length CLASS_NAMES). apply nth_error_Some.
    rewrite Hl. discriminate.
  - exact Hl.
  - eapply nth_error_In. exact Hl.
Qed.

Lemma response_fields_witness :
  snd (predict Demo.Image_open Demo.to_rgb_other
         (Demo.constant_model [f32 2 100; f32 3 100; f32 95 100]) Demo.leaf)
  = Ok {| filename := "leaf.jpg";
          prediction := "Healthy";
          confidence := S754_finite false 8556839184629760 (-53);
          class_index := 2;
          shape := "(2, 2, 3)" |} /\
  exists im,
    Demo.Image_open (fastapi.read Demo.leaf) = Ok im /\
    0 < fst (PIL.size im) /\ 0 < snd (PIL.size im) /\
    "leaf.jpg"%string = fastapi.filename Demo.leaf /\
    "(2, 2, 3)"%string = str_tuple [snd (PIL.size im); fst (PIL.size im); 3] /\
    2 < 3 /\
    nth_error CLASS_NAMES 2 = Some "Healthy"%string /\
    In "Healthy"%string CLASS_NAMES.
Proof.
  assert (H : snd (predict Demo.Image_open Demo.to_rgb_other
                     (Demo.constant_model [f32 2 100; f32 3 100; f32 95 100])
                     Demo.leaf)
              = Ok {| filename := "leaf.jpg";
                      prediction := "Healthy";
                      confidence := S754_finite false 8556839184629760 (-53);
                      class_index := 2;
                      shape := "(2, 2, 3)" |})
    by (rewrite predict_leaf; reflexivity).
  split; [exact H|].
  exact (response_fields _ _ _ _ _ H).
Defined.

(** X2.  For every upload the model is invoked at most once.  Either it is
    not invoked and [predict] raises (decoding or preprocessing failed), or
    it is invoked exactly once, on a batch of shape (1, 256, 256, 3) with
    1 * 256 * 256 * 3 samples, whatever the size of the uploaded image. *)
Theorem model_invoked_at_most_once :
  forall Image_open to_rgb_other MODEL file,
    (fst (predict Image_open to_rgb_other MODEL file) = [] /\
     exists e, snd (predict Image_open to_rgb_other MODEL file) = Raise e) \/
    (exists batch,
       fst (predict Image_open to_rgb_other MODEL file)
       = [ModelInvoked batch] /\
       np.shape batch = [1; 256; 256; 3] /\
       length (np.data batch) = 1 * 256 * 256 * 3).
Proof.
  intros Image_open to_rgb_other MODEL file.
  destruct (read_file_as_image Image_open to_rgb_other (fastapi.read file))
    as [image|e] eqn:Hd.
  2:{ left. rewrite (predict_decode_raise _ _ _ _ e Hd).
      split; [reflexivity|exists e; reflexivity]. }
  destruct (preprocess_image image) as [batch|e] eqn:Hp.
  2:{ left. rewrite (predict_preprocess_raise _ _ _ _ image e Hd Hp).
      split; [reflexivity|exists e; reflexivity]. }
  right. exists batch.
  rewrite (predict_invokes_model _ _ _ _ image batch Hd Hp).
  split; [reflexivity|].
  apply read_file_as_image_inv in Hd. destruct Hd as (im & _ & ->).
  destruct (preprocess_decoded_positive _ _ _ Hp) as [Hw Hh].
  rewrite (preprocess_image_rank3 _ _ _ 3 (decoded_shape to_rgb_other im))
    in Hp by lia.
  injection Hp as <-. split; [reflexivity|].
  cbn [np.data]. apply resize_image_length.
Qed.

(** X4.  A NaN among the scores wins.  [np.max] is NaN exactly when some
    score is NaN, and then [np.argmax] is the position of the first NaN, so
    that the result carries that index and a NaN confidence. *)
Theorem nan_score_wins :
  forall scores, scores <> [] ->
    exists i m,
      np.argmax scores = Ok i /\ np.max scores = Ok m /\
      (is_nan m = true <-> Exists (fun x => is_nan x = true) scores) /\
      (Exists (fun x => is_nan x = true) scores ->
       nth_error scores i = Some S754_nan /\
       (forall j x, j < i -> nth_error scores j = Some x -> is_nan x = false) /\
       forall labels name shp r,
         assemble labels name shp [scores] = Ok r ->
         class_index r = i /\ confidence r = S754_nan).
Proof.
  intros scores Hne.
  destruct (argmax_first_index_of_max scores Hne)
    as (i & m & Hi & Hm & Hat & Hbefore & Hub).
  exists i, m. split; [exact Hi|]. split; [exact Hm|].
  assert (Hiff : is_nan m = true <-> Exists (fun x => is_nan x = true) scores).
  { split.
    - intros Hn. apply Exists_exists. exists m. split; [|exact Hn].
      eapply nth_error_In. exact Hat.
    - intros Hex. destruct Hub as [Hn|Hle]; [exact Hn|].
      apply Exists_exists in Hex. destruct Hex as (x & Hx & Hxn).
      apply Hle, SFleb_not_nan in Hx. destruct Hx as [Hx _]. congruence. }
  split; [exact Hiff|].
  intros Hex. apply Hiff in Hex.
  destruct m; try discriminate. split; [exact Hat|]. split.
  - intros j x Hj Hx. destruct (Hbefore j x Hj Hx) as [Hneq _].
    destruct x; try reflexivity. congruence.
  - intros labels name shp r Hr.
    rewrite (assemble_unfold labels name shp scores i S754_nan Hi Hm) in Hr.
    destruct (nth_error labels i); [|discriminate].
    injection Hr as <-. split; reflexivity.
Qed.

Lemma nan_score_wins_witness :
  [f32 1 2; S754_nan; f32 3 1] <> [] /\
  exists i m,
    np.argmax [f32 1 2; S754_nan; f32 3 1] = Ok i /\
    np.max [f32 1 2; S754_nan; f32 3 1] = Ok m /\
    (is_nan m = true <->
     Exists (fun x => is_nan x = true) [f32 1 2; S754_nan; f32 3 1]) /\
    (Exists (fun x => is_nan x = true) [f32 1 2; S754_nan; f32 3 1] ->
     nth_error [f32 1 2; S754_nan; f32 3 1] i = Some S754_nan /\
     (forall j x, j < i ->
        nth_error [f32 1 2; S754_nan; f32 3 1] j = Some x ->
        is_nan x = false) /\
     forall labels name shp r,
       assemble labels name shp [[f32 1 2; S754_nan; f32 3 1]] = Ok r ->
       class_index r = i /\ confidence r = S754_nan).
Proof.
  assert (Hne : [f32 1 2; S754_nan; f32 3 1] <> []) by discriminate.
  split; [exact Hne|].
  exact (nan_score_wins _ Hne).
Defined.

(** X5.  An image that already has the size of the model input reaches the
    model with its samples unchanged: for a decoded image of width and
    height 256 the batch has as many samples as the decoded array, and the
    sample at every (row, column, channel) is the decoded one. *)
Theorem full_size_image_unchanged :
  forall to_rgb_other im,
    PIL.size im = (snd IMAGE_SIZE, fst IMAGE_SIZE) ->
    exists batch,
      preprocess_image (decoded to_rgb_other im) = Ok batch /\
      length (np.data batch) = length (np.data (decoded to_rgb_other im)) /\
      forall y x c, y < 256 -> x < 256 -> c < 3 ->
        (nth ((y * 256 + x) * 3 + c) (np.data batch) 0
         == nth ((y * 256 + x) * 3 + c)
                (np.data (decoded to_rgb_other im)) 0)%Q.
Proof.
  intros to_rgb_other im Hsize.
  pose proof (decoded_shape to_rgb_other im) as Hshape.
  pose proof (decoded_length to_rgb_other im) as Hlen.
  rewrite Hsize in Hshape, Hlen. cbn [fst snd] in Hshape, Hlen.
  eexists. split; [|split].
  - apply (preprocess_image_rank3 _ _ _ 3 Hshape);
      unfold IMAGE_SIZE; simpl; lia.
  - cbn [np.data]. rewrite resize_image_length, Hlen. reflexivity.
  - intros y x c Hy Hx Hc. cbn [np.data].
    exact (resize_image_same_size _ 1 256 256 3 0 y x c Nat.lt_0_1 Hy Hx Hc).
Qed.

Lemma full_size_image_unchanged_witness :
  PIL.size Samples.full_size_image = (snd IMAGE_SIZE, fst IMAGE_SIZE) /\
  exists batch,
    preprocess_image (decoded Demo.to_rgb_other Samples.full_size_image)
    = Ok batch /\
    length (np.data batch)
    = length (np.data (decoded Demo.to_rgb_other Samples.full_size_image)) /\
    forall y x c, y < 256 -> x < 256 -> c < 3 ->
      (nth ((y * 256 + x) * 3 + c) (np.data batch) 0
       == nth ((y * 256 + x) * 3 + c)
              (np.data (decoded Demo.to_rgb_other Samples.full_size_image))
              0)%Q.
Proof.
  split; [reflexivity|].
  exact (full_size_image_unchanged Demo.to_rgb_other Samples.full_size_image
           eq_refl).
Defined.

(** X6.  The decoded array is laid out by row, column and channel, and its
    samples are the converted pixels: the sample at row [y], column [x],
    channel [c] is band [c] of the pixel at (x, y) after conversion to
    RGB.  For a greyscale source (with or without alpha) all three
    channels hold the grey value; for an RGB or RGBA source channel [c]
    holds band [c], and the alpha band appears nowhere. *)
Theorem decoded_pixel_layout :
  forall to_rgb_other im x y c,
    x < fst (PIL.size im) -> y < snd (PIL.size im) -> c < 3 ->
    let px := PIL.getpixel im (x, y) in
    let s := nth ((y * fst (PIL.size im) + x) * 3 + c)
                 (np.data (decoded to_rgb_other im)) 0%Q in
    s = np.sample
          (nth c (PIL.convert_pixel_RGB to_rgb_other (PIL.mode_of im) px)
               x00) /\
    (PIL.mode_of im = PIL.L \/ PIL.mode_of im = PIL.LA ->
     s = np.sample (nth 0 px x00)) /\
    (PIL.mode_of im = PIL.RGB \/ PIL.mode_of im = PIL.RGBA ->
     s = np.sample (nth c px x00)).
Proof.
  intros to_rgb_other im x y c Hx Hy Hc px s.
  assert (Hs : s = np.sample (nth c (PIL.convert_pixel_RGB to_rgb_other
                                       (PIL.mode_of im) px) x00))
    by (apply decoded_nth; assumption).
  split; [exact Hs|]. split; intros [Hm|Hm]; rewrite Hs, Hm;
    destruct c as [|[|[|c]]]; try lia; reflexivity.
Qed.

Lemma decoded_pixel_layout_witness :
  1 < fst (PIL.size Demo.white_image) /\
  0 < snd (PIL.size Demo.white_image) /\
  2 < 3 /\
  nth ((0 * 2 + 1) * 3 + 2)
      (np.data (decoded Demo.to_rgb_other Demo.white_image)) 0%Q
  = np.sample xff.
Proof.
  assert (Hx : 1 < fst (PIL.size Demo.white_image)) by (simpl; lia).
  assert (Hy : 0 < snd (PIL.size Demo.white_image)) by (simpl; lia).
  assert (Hc : 2 < 3) by lia.
  split; [exact Hx|]. split; [exact Hy|]. split; [exact Hc|].
  exact (proj2 (proj2 (decoded_pixel_layout Demo.to_rgb_other Demo.white_image
                         1 0 2 Hx Hy Hc))
               (or_intror eq_refl)).
Defined.

(** X7.  The outcome of [preprocess_image] is decided by the shape of its
    argument.  It returns a batch exactly for a 3-D or 4-D array whose
    height, width and number of channels are non-zero, of shape
    (1, 256, 256, c), respectively (1, n, 256, 256, c) for a 4-D array
    (n, h, w, c); an array of any other rank raises ValueError, and a zero
    height, width or number of channels raises InvalidArgumentError. *)
Theorem preprocess_image_outcome :
  forall image,
    match preprocess_image image with
    | Ok batch =>
        exists h w c,
          0 < h /\ 0 < w /\ 0 < c /\
          ((np.shape image = [h; w; c] /\
            np.shape batch = [1; 256; 256; c]) \/
           (exists n, np.shape image = [n; h; w; c] /\
                      np.shape batch = [1; n; 256; 256; c]))
    | Raise e =>
        (e = ValueError /\
         length (np.shape image) <> 3 /\ length (np.shape image) <> 4) \/
        (e = InvalidArgumentError /\
         exists h w c,
           (h = 0 \/ w = 0 \/ c = 0) /\
           (np.shape image = [h; w; c] \/
            exists n, np.shape image = [n; h; w; c]))
    end.
Proof.
  intros image. unfold preprocess_image, tf.image_resize, tf.resize_bilinear.
  destruct (np.shape image) as [|d1 [|d2 [|d3 [|d4 [|d5 rest]]]]] eqn:Hs;
    try (cbn -[tf.resize_image]; left; repeat split; discriminate).
  - (* three dimensions *)
    destruct d1 as [|h], d2 as [|w], d3 as [|c]; cbn -[tf.resize_image];
      try (right; split; [reflexivity|]; eexists _, _, _;
           refine (conj _ (or_introl eq_refl)); lia).
    exists (S h), (S w), (S c). repeat (split; [lia|]). left.
    split; reflexivity.
  - (* four dimensions *)
    destruct d2 as [|h], d3 as [|w], d4 as [|c]; cbn -[tf.resize_image];
      try (right; split; [reflexivity|]; eexists _, _, _;
           refine (conj _ (or_intror (ex_intro _ d1 eq_refl))); lia).
    exists (S h), (S w), (S c). repeat (split; [lia|]). right.
    exists d1. split; reflexivity.
Qed.

(** X8.  A greyscale upload stays grey in the batch: for a decoded image
    of mode L or LA with non-zero width and height, the three channels of
    every pixel of the batch are equal. *)
Theorem greyscale_batch_has_equal_channels :
  forall to_rgb_other im,
    PIL.mode_of im = PIL.L \/ PIL.mode_of im = PIL.LA ->
    0 < fst (PIL.size im) -> 0 < snd (PIL.size im) ->
    exists batch,
      preprocess_image (decoded to_rgb_other im) = Ok batch /\
      forall y x c, y < 256 -> x < 256 -> c < 3 ->
        nth ((y * 256 + x) * 3 + c) (np.data batch) 0%Q
        = nth ((y * 256 + x) * 3) (np.data batch) 0%Q.
Proof.
  intros to_rgb_other im Hmode Hw Hh.
  eexists. split.
  - apply (preprocess_image_rank3 _ _ _ 3 (decoded_shape to_rgb_other im)); lia.
  - intros y x c Hy Hx Hc. cbn [np.data].
    assert (Hgrey : forall y' x' c', y' < snd (PIL.size im) ->
              x' < fst (PIL.size im) -> c' < 3 ->
              nth (((0 * snd (PIL.size im) + y') * fst (PIL.size im) + x') * 3
                   + c')
                  (np.data (decoded to_rgb_other im)) 0%Q
              = np.sample (nth 0 (PIL.getpixel im (x', y')) x00)).
    { intros y' x' c' Hy' Hx' Hc'. simpl Nat.mul. simpl Nat.add.
      rewrite (decoded_nth to_rgb_other im x' y' c' Hx' Hy' Hc').
      destruct Hmode as [-> | ->];
        destruct c' as [|[|[|c']]]; try lia; reflexivity. }
    pose proof (weights_lower_lt (fst IMAGE_SIZE) _ y Hh Hy) as Hyl.
    pose proof (weights_upper_lt (fst IMAGE_SIZE) _ y Hh) as Hyu.
    pose proof (weights_lower_lt (snd IMAGE_SIZE) _ x Hw Hx) as Hxl.
    pose proof (weights_upper_lt (snd IMAGE_SIZE) _ x Hw) as Hxu.
    pose proof (resize_image_nth (np.data (decoded to_rgb_other im)) 1
                  (snd (PIL.size im)) (fst (PIL.size im)) 3
                  (fst IMAGE_SIZE) (snd IMAGE_SIZE) 0 y x c
                  Nat.lt_0_1 Hy Hx Hc) as Hc1.
    pose proof (resize_image_nth (np.data (decoded to_rgb_other im)) 1
                  (snd (PIL.size im)) (fst (PIL.size im)) 3
                  (fst IMAGE_SIZE) (snd IMAGE_SIZE) 0 y x 0
                  Nat.lt_0_1 Hy Hx (Nat.lt_0_succ 2)) as Hc0.
    cbv beta zeta in Hc1, Hc0.
    rewrite !Hgrey in Hc1 by (assumption || lia).
    rewrite !Hgrey in Hc0 by (assumption || lia).
    etransitivity; [exact Hc1|]. rewrite Nat.add_0_r in Hc0.
    symmetry. exact Hc0.
Qed.

Lemma greyscale_batch_has_equal_channels_witness :
  PIL.mode_of Samples.grey_image = PIL.LA /\
  0 < fst (PIL.size Samples.grey_image) /\
  0 < snd (PIL.size Samples.grey_image) /\
  exists batch,
    preprocess_image (decoded Demo.to_rgb_other Samples.grey_image)
    = Ok batch /\
    forall y x c, y < 256 -> x < 256 -> c < 3 ->
      nth ((y * 256 + x) * 3 + c) (np.data batch) 0%Q
      = nth ((y * 256 + x) * 3) (np.data batch) 0%Q.
Proof.
  split; [reflexivity|]. split; [exact Nat.lt_0_2|]. split; [exact Nat.lt_0_2|].
  exact (greyscale_batch_has_equal_channels Demo.to_rgb_other
           Samples.grey_image (or_intror eq_refl) Nat.lt_0_2 Nat.lt_0_2).
Defined.
